(** * Wormhole ERC-20 bridge client: [src/page/CrossChain/erc20/token.js]

    A shallow embedding of the module's asynchronous functions.  Every
    interaction with a collaborator (chain client, wallet, indexer, proof
    generator, console, the shared proof subject's observers) is recorded, in
    order, in a trace; what the collaborators answer is read from a [World]. *)

From Stdlib Require Import List String Ascii ZArith Bool Lia Arith.
From Stdlib Require Import DecimalString.
Import ListNotations.
Open Scope string_scope.
Open Scope list_scope.
Open Scope Z_scope.

Set Implicit Arguments.
Set Warnings "-register-all".

(** ** Values *)

Definition Address := string.
Definition Account := string.

(** A JavaScript [Error]; only its message matters here. *)
Inductive Error : Type :=
| MkError (message : string).

(** How an awaited computation ends: it is fulfilled with a value, it is
    rejected (an exception is thrown), or it has not settled. *)
Inductive Outcome (A : Type) : Type :=
| Ok (a : A)
| Throw (e : Error)
| Pending.

Arguments Ok {A} a.
Arguments Throw {A} e.
Arguments Pending {A}.

(** A promise is modelled by the way it settles. *)
Definition Promise (A : Type) := Outcome A.

(** [assets(address)] of the backing contract: [{ target, timestamp }].
    [target] is the hex string of an address; [timestamp] is the number that
    the unary plus of the source gives for the returned decimal string. *)
Record RegistrationRecord : Type := {
  target : string;
  timestamp : Z
}.

(** The documented return values of [getTokenRegisterStatus]:
    0: unregister, 1: registered, 2: registering. *)
Inductive Status : Type :=
| Unregistered
| Registered
| Registering.

Definition statusCode (s : Status) : Z :=
  match s with
  | Unregistered => 0
  | Registered => 1
  | Registering => 2
  end.

(** [tokenToInfo(address)] of the mapping contract: [{ source, backing }]. *)
Record Info : Type := {
  source : Address;
  backing : Address
}.

(** The indexer's answer, with the fields listed in [monitorEventProof]. *)
Record IndexerRecord : Type := {
  extrinsic_index : string;
  account_id : string;
  block_num : Z;
  block_hash : string;
  ir_backing : string;
  ir_source : string;
  ir_target : string;
  block_timestamp : Z;
  mmr_index : Z;
  mmr_root : string;
  signatures : string;
  block_header : string;
  tx : string
}.

(** The proof that [getMPTProof] resolves to; opaque to this module. *)
Definition MPTProof := string.

(** What [tokenInfoGetter] resolves to; either field may be undefined. *)
Record SymbolDecimals : Type := {
  sd_symbol : option string;
  sd_decimals : option Z
}.

Record NameLogo : Type := {
  nl_name : string;
  nl_logo : string
}.

(** The object built by [getTokenInfo]. *)
Record Token : Type := {
  address : Address;
  symbol : string;
  decimals : Z;
  name : string;
  logo : string;
  balance : Z
}.

(** [{ ...info, ...token }] in [getAllTokensDvm]: the keys of both objects
    (they share none). *)
Record DvmToken : Type := {
  dvm_info : Info;
  dvm_token : Token
}.

(** ** Contracts and transaction objects

    [contract.methods.name(args)] builds a transaction object; nothing
    reaches the chain until [.call()] or [.send()] is applied to it. *)

Inductive Contract : Type :=
| backingContract
| mappingContract
| stringContract (token : Address).

Inductive Arg : Type :=
| AStr (s : string)
| ANum (n : nat).

Record TxObject : Type := {
  tx_contract : Contract;
  tx_method : string;
  tx_args : list Arg
}.

Definition methods (c : Contract) (m : string) (args : list Arg) : TxObject :=
  {| tx_contract := c; tx_method := m; tx_args := args |}.

(** ** Events *)

Inductive Notification : Type :=
| NNext (p : MPTProof)
| NError (e : Error)
| NComplete.

Inductive Event : Type :=
| ConsoleWarn (msg : string)
| ConsoleLog (args : list string)
| Call (t : TxObject)                      (* [.call()] *)
| Send (t : TxObject) (from : Account)     (* [.send({ from })] *)
| GetMetamaskActiveAccount
| IsNetworkMatch (id : Z)
| GetSymbolAndDecimals (token : Address)
| TokenInfoGetter (token : Address)
| GetTokenBalance (token : Address) (account : Account)
| HttpGet (url : string) (source_param : Address)
| Delay (ms : Z)
| GetMPTProof (hash : string) (proofAddress : string)
| Notify (observer : nat) (n : Notification)
| Par (branches : list (list Event)).      (* [Promise.all] of async tasks *)

(** ** The world: configuration and collaborators *)

Record World : Type := {
  (* configJson[process.env.REACT_APP_CHAIN] *)
  DAPP_API : string;
  DVM_NETWORK_ID : Z;
  (* Web3.utils *)
  isAddress : string -> bool;
  hexToNumber : string -> Outcome Z;
  (* [new web3.eth.Contract(abi, address)]: it may throw on the address *)
  web3_Contract : Address -> Outcome unit;
  (* answers of the chain clients *)
  chain_assetLength : Outcome nat;
  chain_allAssets : nat -> Outcome Address;
  chain_assets : Address -> Outcome RegistrationRecord;
  chain_tokenLength : Outcome nat;
  chain_allTokens : nat -> Outcome Address;
  chain_tokenToInfo : Address -> Outcome Info;
  chain_symbol : Address -> Outcome string;
  chain_send : TxObject -> Account -> Outcome string;
  (* ../utils *)
  wallet_account : Outcome Account;
  wallet_networkId : Outcome Z;
  mpt_proof : string -> string -> Outcome MPTProof;
  (* ./token-util *)
  util_nameAndLogo : Address -> NameLogo;
  util_symbolAndDecimals : Address -> Outcome SymbolDecimals;
  util_tokenInfo : Address -> Outcome SymbolDecimals;
  util_tokenBalance : Address -> Account -> Outcome Z;
  (* the indexer's answer to the k-th request sent to it *)
  indexer : nat -> Address -> Outcome (option IndexerRecord)
}.

(** ** The shared subject ([const proofSubject = new Subject()]) *)

Record Subject : Type := {
  observers : list nat;
  isStopped : bool;
  hasError : bool;
  thrownError : option Error
}.

Definition newSubject : Subject :=
  {| observers := []; isStopped := false; hasError := false;
     thrownError := None |}.

Record State : Type := {
  trace : list Event;
  proofSubject : Subject
}.

Definition initialState : State :=
  {| trace := []; proofSubject := newSubject |}.

(** ** The monad of asynchronous computations *)

Definition M (A : Type) : Type := State -> Outcome A * State.

Definition ret {A} (a : A) : M A := fun st => (Ok a, st).

Definition bind {A B} (m : M A) (k : A -> M B) : M B :=
  fun st =>
    match m st with
    | (Ok a, st') => k a st'
    | (Throw e, st') => (Throw e, st')
    | (Pending, st') => (Pending, st')
    end.

Definition throw {A} (e : Error) : M A := fun st => (Throw e, st).

(** [try { m } catch (error) { h error }] *)
Definition try_catch {A} (m : M A) (h : Error -> M A) : M A :=
  fun st =>
    match m st with
    | (Throw e, st') => h e st'
    | r => r
    end.

(** A synchronous library call that may throw. *)
Definition lift {A} (o : Outcome A) : M A := fun st => (o, st).

Definition emit (e : Event) : M unit :=
  fun st =>
    (Ok tt, {| trace := trace st ++ [e]; proofSubject := proofSubject st |}).

(** Awaiting a collaborator: the request is recorded, then its answer is the
    outcome. *)
Definition await {A} (e : Event) (answer : Outcome A) : M A :=
  fun st =>
    (answer, {| trace := trace st ++ [e]; proofSubject := proofSubject st |}).

Declare Scope async_scope.
Delimit Scope async_scope with async.
Notation "x <- m ;; k" := (bind m (fun x => k))
  (at level 61, m at next level, right associativity) : async_scope.
Notation "m ;; k" := (bind m (fun _ => k))
  (at level 61, right associativity) : async_scope.
Open Scope async_scope.

(** What a run returned, and the trace it left. *)
Definition outcome {A} (r : Outcome A * State) : Outcome A := fst r.
Definition events {A} (r : Outcome A * State) : list Event := trace (snd r).

(** The state after some more events. *)
Definition after (st : State) (evs : list Event) : State :=
  {| trace := trace st ++ evs; proofSubject := proofSubject st |}.

(** ** Registration status *)

(** [!address]: the empty string is the falsy string. *)
Definition falsy_string (s : string) : bool := String.eqb s "".

(** [!!n] for a number. *)
Definition truthy_number (n : Z) : bool := negb (n =? 0).

Definition invalid_address (w : World) (address : string) : bool :=
  falsy_string address || negb (isAddress w address).

Definition getTokenRegisterStatus (w : World) (address : Address)
  : M (option Status) :=
  if invalid_address w address then
    emit (ConsoleWarn
      ("Token address is invalid, except an ERC20 token address. Received value: "
         ++ address)%string) ;;
    ret None
  else
    r <- await (Call (methods backingContract "assets" [AStr address]))
               (chain_assets w address) ;;
    n <- lift (hexToNumber w (target r)) ;;
    let isTargetTruthy := truthy_number n in
    let isTimestampExist := 0 <? timestamp r in
    if isTimestampExist && negb isTargetTruthy then ret (Some Registering)
    else if isTimestampExist && isTargetTruthy then ret (Some Registered)
    else ret (Some Unregistered).

(** [!!status]: [undefined] and [0] are falsy. *)
Definition truthy_status (s : option Status) : bool :=
  match s with
  | None => false
  | Some c => truthy_number (statusCode c)
  end.

Definition hasRegistered (w : World) (address : Address) : M bool :=
  status <- getTokenRegisterStatus w address ;;
  ret (truthy_status status).

(** ** Probing the type of [symbol()] *)

Record SymbolType : Type := {
  st_symbol : option string;
  isString : bool
}.

Definition getSymbolType (w : World) (address : Address) : M SymbolType :=
  try_catch
    (lift (web3_Contract w address) ;;
     symbol <- await (Call (methods (stringContract address) "symbol" []))
                     (chain_symbol w address) ;;
     ret {| st_symbol := Some symbol; isString := true |})
    (fun error =>
     sd <- await (GetSymbolAndDecimals address)
                 (util_symbolAndDecimals w address) ;;
     ret {| st_symbol := sd_symbol sd; isString := false |}).

(** ** The shared subject's observer interface *)

Definition notify_all (obs : list nat) (n : Notification) : list Event :=
  map (fun o => Notify o n) obs.

Definition subject_next (p : MPTProof) : M unit :=
  fun st =>
    let s := proofSubject st in
    if isStopped s then (Ok tt, st)
    else (Ok tt, {| trace := trace st ++ notify_all (observers s) (NNext p);
                    proofSubject := s |}).

Definition subject_error (e : Error) : M unit :=
  fun st =>
    let s := proofSubject st in
    (Ok tt, {| trace := trace st ++ notify_all (observers s) (NError e);
               proofSubject := {| observers := []; isStopped := true;
                                  hasError := true;
                                  thrownError := Some e |} |}).

Definition subject_complete : M unit :=
  fun st =>
    let s := proofSubject st in
    (Ok tt, {| trace := trace st ++ notify_all (observers s) NComplete;
               proofSubject := {| observers := []; isStopped := true;
                                  hasError := hasError s;
                                  thrownError := thrownError s |} |}).

(** [proofObservable.subscribe(observer)] by a consumer of the module. *)
Definition subscribeProof (observer : nat) : M unit :=
  fun st =>
    let s := proofSubject st in
    if hasError s then
      match thrownError s with
      | Some e => emit (Notify observer (NError e)) st
      | None => (Ok tt, st)
      end
    else if isStopped s then emit (Notify observer NComplete) st
    else (Ok tt, {| trace := trace st;
                    proofSubject := {| observers := observers s ++ [observer];
                                       isStopped := isStopped s;
                                       hasError := hasError s;
                                       thrownError := thrownError s |} |}).

(** ** Observables

    Every observable of the module emits at most one value, so subscribing to
    one is an asynchronous computation: [Ok v] is [next(v)] followed by
    [complete()], [Throw e] is [error(e)], [Pending] is no notification. *)

Definition Observable (A : Type) : Type := M A.

(** [from(promise)]: each subscription observes how the one promise settled. *)
Definition from {A} (p : Promise A) : Observable A := lift p.

(** [map(project)], where [project] may throw. *)
Definition rx_map {A B} (project : A -> Outcome B) (src : Observable A)
  : Observable B :=
  x <- src ;; lift (project x).

(** [retryWhen((error) => error.pipe(delay(ms)))]: on an error of the source,
    wait [ms] and subscribe to the source again.  [fuel] bounds the number of
    subscriptions to the source that are followed. *)
Fixpoint retryWhen_delay {A} (ms : Z) (fuel : nat) (src : Observable A)
  : Observable A :=
  match fuel with
  | O => lift Pending
  | S fuel' =>
      try_catch src
        (fun _ => emit (Delay ms) ;; retryWhen_delay ms fuel' src)
  end.

(** [switchMap(project)], where [project] returns an observable. *)
Definition switchMap {A B} (project : A -> Observable B) (src : Observable A)
  : Observable B :=
  x <- src ;; project x.

(** [.subscribe(proofSubject)]: the subject is the observer. *)
Definition subscribe_proofSubject (src : Observable MPTProof) : M unit :=
  fun st =>
    match src st with
    | (Ok p, st') => (subject_next p ;; subject_complete) st'
    | (Throw e, st') => subject_error e st'
    | (Pending, st') => (Pending, st')
    end.

(** ** Monitoring the registration proof *)

Definition proofAddress : string :=
  "0xe66f3de22eed97c730152f373193b5a0485b407d88f37d5fd6a2c59e5a696691".

Definition is_HttpGet (e : Event) : bool :=
  match e with
  | HttpGet _ _ => true
  | _ => false
  end.

Definition count_HttpGet (tr : list Event) : nat :=
  List.length (filter is_HttpGet tr).

(** [axios.get(url, { params: { source } }).then((res) => res.data)]: the
    request is sent when the expression is evaluated; the promise it yields
    settles with the indexer's answer to that request. *)
Definition axios_get (w : World) (url : string) (src : Address)
  : M (Promise (option IndexerRecord)) :=
  fun st =>
    let k := count_HttpGet (trace st) in
    (Ok (indexer w k src),
     {| trace := trace st ++ [HttpGet url src];
        proofSubject := proofSubject st |}).

(** The handle returned by [.subscribe]: the pipeline that is left to run. *)
Record Subscription : Type := {
  sub_address : Address;
  sub_api : Promise (option IndexerRecord)
}.

Definition check_data (data : option IndexerRecord) : Outcome IndexerRecord :=
  match data with
  | None => Throw (MkError "Unreceived register block info")
  | Some d => Ok d
  end.

(** [getMPTProof(hash, key)] sends its request and yields a promise. *)
Definition getMPTProof (w : World) (hash key : string)
  : M (Promise MPTProof) :=
  emit (GetMPTProof hash key) ;; ret (mpt_proof w hash key).

(** [from(api).pipe(map, retryWhen, switchMap).subscribe(proofSubject)] *)
Definition pipeline (w : World) (fuel : nat)
  (api : Promise (option IndexerRecord)) : M unit :=
  subscribe_proofSubject
    (switchMap
       (fun d => p <- getMPTProof w (block_hash d) proofAddress ;; from p)
       (retryWhen_delay 3000 fuel
          (rx_map check_data (from api)))).

Definition monitorEventProof (w : World) (address : Address)
  : M Subscription :=
  api <- axios_get w (DAPP_API w ++ "/api/ethereumIssuing/register")%string address ;;
  ret {| sub_address := address; sub_api := api |}.

(** The asynchronous remainder of a subscription made by
    [monitorEventProof]. *)
Definition runSubscription (w : World) (fuel : nat) (s : Subscription)
  : M unit :=
  pipeline w fuel (sub_api s).

(** ** Registration *)

Definition getMetamaskActiveAccount (w : World) : M Account :=
  await GetMetamaskActiveAccount (wallet_account w).

Definition send (w : World) (t : TxObject) (from : Account) : M string :=
  await (Send t from) (chain_send w t from).

Definition registerToken (w : World) (address : Address)
  : M (option Subscription) :=
  isRegistered <- hasRegistered w address ;;
  if negb isRegistered then
    from <- getMetamaskActiveAccount w ;;
    st <- getSymbolType w address ;;
    let register :=
      if isString st then methods backingContract "registerToken"
      else methods backingContract "registerTokenBytes32" in
    txHash <- send w (register [AStr address]) from ;;
    emit (ConsoleLog ["%c [ register token transaction hash ]-118";
                      "font-size:13px; background:pink; color:#bf2c9f;";
                      txHash]) ;;
    s <- monitorEventProof w address ;;
    ret (Some s)
  else ret None.

(** ** Cross-chain transfers *)

(** [amount.toString()] *)
Definition toString (amount : Z) : string :=
  NilZero.string_of_int (Z.to_int amount).

(** Modelled from the spec: [isNetworkMatch] of [../utils] is not among the
    sources; it compares the network id the active wallet is connected to with
    the expected one. *)
Definition isNetworkMatch (w : World) (expected : Z) : M bool :=
  id <- await (IsNetworkMatch expected) (wallet_networkId w) ;;
  ret (id =? expected).

Definition networkMismatch : Error :=
  MkError "common:Ethereum network type does not match, please switch to {{network}} network in metamask.".

Definition crossSendErc20FromEthToDvm (w : World)
  (tokenAddress recipientAddress : Address) (amount : Z) : M TxObject :=
  result <- ret (methods backingContract "crossSendToken"
                   [AStr tokenAddress; AStr recipientAddress;
                    AStr (toString amount)]) ;;
  ret result.

Definition crossSendErc20FromDvmToEth (w : World)
  (tokenAddress recipientAddress : Address) (amount : Z) : M TxObject :=
  isMatch <- isNetworkMatch w (DVM_NETWORK_ID w) ;;
  if isMatch then
    result <- ret (methods mappingContract "crossTransfer"
                     [AStr tokenAddress; AStr recipientAddress;
                      AStr (toString amount)]) ;;
    ret result
  else throw networkMismatch.

(** ** The token catalogue *)

Definition truthy_string (s : string) : bool := negb (falsy_string s).

Definition or_default {A} (o : option A) (d : A) : A :=
  match o with
  | Some a => a
  | None => d
  end.

Definition getTokenInfo (w : World) (tokenAddress : Address)
  (currentAccount : Account) : M Token :=
  sd <- await (TokenInfoGetter tokenAddress) (util_tokenInfo w tokenAddress) ;;
  let symbol := or_default (sd_symbol sd) "" in
  let decimals := or_default (sd_decimals sd) 0 in
  let nl := util_nameAndLogo w tokenAddress in
  balance <- (if truthy_string currentAccount then
                await (GetTokenBalance tokenAddress currentAccount)
                      (util_tokenBalance w tokenAddress currentAccount)
              else ret 0) ;;
  ret {| address := tokenAddress; symbol := symbol; decimals := decimals;
         name := nl_name nl; logo := nl_logo nl; balance := balance |}.

(** The values when all tasks are fulfilled; a rejection when one is
    rejected.  Which rejection [Promise.all] reports depends on the order in
    which the tasks settle; the one of the lowest index is taken here, and no
    property below depends on which one it is. *)
Fixpoint all_settled {A} (rs : list (Outcome A)) : Outcome (list A) :=
  match rs with
  | [] => Ok []
  | Ok a :: rs' =>
      match all_settled rs' with
      | Ok l => Ok (a :: l)
      | Throw e => Throw e
      | Pending => Pending
      end
  | Throw e :: _ => Throw e
  | Pending :: rs' =>
      match all_settled rs' with
      | Throw e => Throw e
      | _ => Pending
      end
  end.

(** One task of a [Promise.all]: it runs on its own and leaves its own
    trace. *)
Definition run_task {A} (s : Subject) (task : M A) : Outcome A * list Event :=
  let r := task {| trace := []; proofSubject := s |} in
  (fst r, trace (snd r)).

(** [await Promise.all(tasks)]: the tasks run concurrently; their traces are
    kept side by side in one [Par] event. *)
Definition promise_all {A} (tasks : list (M A)) : M (list A) :=
  fun st =>
    let rs := map (run_task (proofSubject st)) tasks in
    (all_settled (map fst rs),
     {| trace := trace st ++ [Par (map snd rs)];
        proofSubject := proofSubject st |}).

(** [new Array(+length).fill(0).map((_, index) => f index)] *)
Definition array_map_index {A} (length : nat) (f : nat -> A) : list A :=
  map f (seq 0 length).

Definition getAllTokensDvm (w : World) (currentAccount : Account)
  : M (list DvmToken) :=
  length <- await (Call (methods mappingContract "tokenLength" []))
                  (chain_tokenLength w) ;;
  tokens <- promise_all
    (array_map_index length (fun index =>
       address <- await (Call (methods mappingContract "allTokens" [ANum index]))
                        (chain_allTokens w index) ;;
       info <- await (Call (methods mappingContract "tokenToInfo" [AStr address]))
                     (chain_tokenToInfo w address) ;;
       token <- getTokenInfo w (source info) currentAccount ;;
       ret {| dvm_info := info; dvm_token := token |})) ;;
  ret tokens.

Definition getAllTokensEthereum (w : World) (currentAccount : Account)
  : M (list Token) :=
  length <- await (Call (methods backingContract "assetLength" []))
                  (chain_assetLength w) ;;
  tokens <- promise_all
    (array_map_index length (fun index =>
       address <- await (Call (methods backingContract "allAssets" [ANum index]))
                        (chain_allAssets w index) ;;
       getTokenInfo w address currentAccount)) ;;
  ret tokens.

(** [getAllTokens(currentAccount, networkType = "eth")]; an entry carries the
    keys of [info] only on the destination chain. *)
Definition getAllTokens (w : World) (currentAccount : Account)
  (networkType : string) : M (list (option Info * Token)) :=
  if negb (truthy_string currentAccount) then ret []
  else if String.eqb networkType "eth" then
    l <- getAllTokensEthereum w currentAccount ;;
    ret (map (fun t => (None, t)) l)
  else
    l <- getAllTokensDvm w currentAccount ;;
    ret (map (fun t => (Some (dvm_info t), dvm_token t)) l).

(** ** A sample world

    Three tokens on the source chain: ["0xE2"] is registering, ["0xAB"] is
    registered, ["0xCD"] was never registered.  The wallet is connected to
    network [net]; the indexer answers null to its first [nulls] requests. *)

Definition sampleRecord : IndexerRecord :=
  {| extrinsic_index := "7-1"; account_id := "acc"; block_num := 7;
     block_hash := "0xb10c"; ir_backing := "0xBA"; ir_source := "0xE2";
     ir_target := "0x0"; block_timestamp := 100; mmr_index := 3;
     mmr_root := "0xroot"; signatures := ""; block_header := "{}";
     tx := "0x7a" |}.

Definition sampleWorld (net : Z) (nulls : nat) : World :=
  {| DAPP_API := "https://api";
     DVM_NETWORK_ID := 43;
     isAddress := fun s => String.eqb s "0xE2" || String.eqb s "0xAB"
                           || String.eqb s "0xCD";
     hexToNumber := fun s =>
       if String.eqb s "0x0" then Ok 0
       else if String.eqb s "0xABC" then Ok 2748
       else Throw (MkError "not a valid hex string");
     web3_Contract := fun s =>
       if String.eqb s "" || String.eqb s "0xE2" || String.eqb s "0xAB"
          || String.eqb s "0xCD"
       then Ok tt
       else Throw (MkError "Provided address is invalid");
     chain_assetLength := Ok 3%nat;
     chain_allAssets := fun i =>
       match i with
       | 0%nat => Ok "0xE2"
       | 1%nat => Ok "0xAB"
       | _ => Ok "0xCD"
       end;
     chain_assets := fun a =>
       if String.eqb a "0xE2" then Ok {| target := "0x0"; timestamp := 100 |}
       else if String.eqb a "0xAB" then
         Ok {| target := "0xABC"; timestamp := 100 |}
       else Ok {| target := "0xABC"; timestamp := 0 |};
     chain_tokenLength := Ok 2%nat;
     chain_allTokens := fun i =>
       match i with
       | 0%nat => Ok "0xD0"
       | _ => Ok "0xD1"
       end;
     chain_tokenToInfo := fun a =>
       if String.eqb a "0xD0" then Ok {| source := "0xAB"; backing := "0xBA" |}
       else Ok {| source := "0xE2"; backing := "0xBA" |};
     chain_symbol := fun a =>
       if String.eqb a "0xCD" then Ok "CDT"
       else Throw (MkError "cannot decode string");
     chain_send := fun _ _ => Ok "0x7a";
     wallet_account := Ok "0xme";
     wallet_networkId := Ok net;
     mpt_proof := fun h _ =>
       if String.eqb h "0xb10c" then Ok "proof"
       else Throw (MkError "no proof");
     util_nameAndLogo := fun a => {| nl_name := (a ++ "-name")%string; nl_logo := "" |};
     util_symbolAndDecimals := fun a =>
       Ok {| sd_symbol := Some "B32"; sd_decimals := Some 18 |};
     util_tokenInfo := fun a =>
       Ok {| sd_symbol := Some (a ++ "-sym")%string; sd_decimals := None |};
     util_tokenBalance := fun _ _ => Ok 5;
     indexer := fun k _ =>
       if (k <? nulls)%nat then Ok None else Ok (Some sampleRecord) |}.

(** ** Names for the events and statements of the properties *)

(** The reading of C3 as it is stated: [IsRegistered] returns true exactly
    when what [Status] returns is something other than Unregistered. *)
Definition registered_iff_not_unregistered (w : World) (st : State)
  (a : Address) : Prop :=
  outcome (hasRegistered w a st) = Ok true <->
  exists s, outcome (getTokenRegisterStatus w a st) = Ok s /\
            s <> Some Unregistered.

Definition registerLog (txHash : string) : Event :=
  ConsoleLog ["%c [ register token transaction hash ]-118";
              "font-size:13px; background:pink; color:#bf2c9f;";
              txHash].

Definition registerQuery (w : World) (a : Address) : Event :=
  HttpGet (DAPP_API w ++ "/api/ethereumIssuing/register")%string a.

Definition symbolProbe (a : Address) : Event :=
  Call (methods (stringContract a) "symbol" []).

(** The handle of the monitoring started after the events [tr]. *)
Definition handleAfter (w : World) (tr : list Event) (a : Address)
  : Subscription :=
  {| sub_address := a; sub_api := indexer w (count_HttpGet tr) a |}.

Definition invalidWarning (a : Address) : Event :=
  ConsoleWarn
    ("Token address is invalid, except an ERC20 token address. Received value: "
       ++ a)%string.


(** ** Use of the module over time

    What a client can do with the module's proof stream: attach an observer
    to [proofObservable], register a token and let its monitoring run, or let
    a monitoring run for an address. *)

Inductive Action : Type :=
| ASubscribe (observer : nat)
| ARegister (w : World) (address : Address) (fuel : nat)
| AMonitor (w : World) (address : Address) (fuel : nat).

Definition runAction (act : Action) : M unit :=
  match act with
  | ASubscribe o => subscribeProof o
  | ARegister w a fuel =>
      s <- registerToken w a ;;
      match s with
      | Some sub => runSubscription w fuel sub
      | None => ret tt
      end
  | AMonitor w a fuel =>
      sub <- monitorEventProof w a ;; runSubscription w fuel sub
  end.

Fixpoint runActions (acts : list Action) (st : State) : State :=
  match acts with
  | [] => st
  | act :: rest => runActions rest (snd (runAction act st))
  end.

(** An observer being handed a proof. *)
Definition is_next (e : Event) : bool :=
  match e with
  | Notify _ (NNext _) => true
  | _ => false
  end.

(** On a stopped subject the computation hands no proof to any observer and
    leaves the subject stopped. *)
Definition silent {A} (m : M A) : Prop :=
  forall st, isStopped (proofSubject st) = true ->
    isStopped (proofSubject (snd (m st))) = true /\
    exists evs, trace (snd (m st)) = trace st ++ evs /\
                Forall (fun e => is_next e = false) evs.

(** The sample record with a block hash the proof generator rejects. *)
Definition unprovableRecord : IndexerRecord :=
  {| extrinsic_index := "9-1"; account_id := "acc"; block_num := 9;
     block_hash := "0xdead"; ir_backing := "0xBA"; ir_source := "0xCD";
     ir_target := "0x0"; block_timestamp := 120; mmr_index := 4;
     mmr_root := "0xroot"; signatures := ""; block_header := "{}";
     tx := "0x7b" |}.

(** A transaction being sent. *)
Definition is_Send (e : Event) : bool :=
  match e with
  | Send _ _ => true
  | _ => false
  end.

(** The composed record of index [i] in [getAllTokensDvm], given what the
    collaborators answered for that index. *)
Definition composed (w : World) (account : Account) (info : Info)
  (sd : SymbolDecimals) (bal : Z) : DvmToken :=
  {| dvm_info := info;
     dvm_token :=
       {| address := source info;
          symbol := or_default (sd_symbol sd) "";
          decimals := or_default (sd_decimals sd) 0;
          name := nl_name (util_nameAndLogo w (source info));
          logo := nl_logo (util_nameAndLogo w (source info));
          balance := if truthy_string account then bal else 0 |} |}.

(** The requests of the resolution of index [i]. *)
Definition resolution (account : Account) (i : nat) (dvm : Address)
  (info : Info) : list Event :=
  [Call (methods mappingContract "allTokens" [ANum i]);
   Call (methods mappingContract "tokenToInfo" [AStr dvm]);
   TokenInfoGetter (source info)] ++
  (if truthy_string account then [GetTokenBalance (source info) account]
   else []).

(** ** The remaining entry point *)

Definition confirmRegister (w : World) (proof : MPTProof) : M TxObject :=
  result <- ret (methods backingContract "crossChainSync" [AStr proof]) ;;
  ret result.

(** ** Footprints

    What a run added to the trace, and classes of events used to say what a
    function keeps to. *)

Definition appended {A} (st : State) (r : Outcome A * State) : list Event :=
  skipn (List.length (trace st)) (events r).

(** [p] holds of the event, and of every event of every branch when the event
    is a [Par]. *)
Fixpoint event_all (p : Event -> bool) (e : Event) : bool :=
  match e with
  | Par bs => forallb (forallb (event_all p)) bs
  | _ => p e
  end.

(** The run leaves the subject as it is and only adds events of class [p]. *)
Definition confined {A} (p : Event -> bool) (m : M A) : Prop :=
  forall st,
    proofSubject (snd (m st)) = proofSubject st /\
    exists evs, trace (snd (m st)) = trace st ++ evs /\
                Forall (fun e => event_all p e = true) evs.

Definition is_Notify (e : Event) : bool :=
  match e with
  | Notify _ _ => true
  | _ => false
  end.

Definition is_GetMPTProof (e : Event) : bool :=
  match e with
  | GetMPTProof _ _ => true
  | _ => false
  end.

(** Neither a transaction, nor a request to the indexer or to the proof
    generator, nor a wait, nor a notification. *)
Definition passive (e : Event) : bool :=
  match e with
  | Send _ _ | HttpGet _ _ | GetMPTProof _ _ | Delay _ | Notify _ _ => false
  | _ => true
  end.

Definition same_contract (c1 c2 : Contract) : bool :=
  match c1, c2 with
  | backingContract, backingContract => true
  | mappingContract, mappingContract => true
  | stringContract a1, stringContract a2 => String.eqb a1 a2
  | _, _ => false
  end.

(** A read of contract [c], or a metadata request of the catalogue. *)
Definition catalogue_read (c : Contract) (e : Event) : bool :=
  match e with
  | Call t => same_contract (tx_contract t) c
  | TokenInfoGetter _ | GetTokenBalance _ _ => true
  | _ => false
  end.

(** The contract that [getAllTokens] enumerates for a network type. *)
Definition catalogue_contract (networkType : string) : Contract :=
  if String.eqb networkType "eth" then backingContract else mappingContract.

(** The record built by [getTokenInfo] from what the collaborators answered. *)
Definition decorated (w : World) (account : Account) (a : Address)
  (sd : SymbolDecimals) (bal : Z) : Token :=
  {| address := a;
     symbol := or_default (sd_symbol sd) "";
     decimals := or_default (sd_decimals sd) 0;
     name := nl_name (util_nameAndLogo w a);
     logo := nl_logo (util_nameAndLogo w a);
     balance := if truthy_string account then bal else 0 |}.

(** The requests of the resolution of index [i] on the source chain. *)
Definition assetResolution (account : Account) (i : nat) (a : Address)
  : list Event :=
  [Call (methods backingContract "allAssets" [ANum i]); TokenInfoGetter a] ++
  (if truthy_string account then [GetTokenBalance a account] else []).

(** ** Variants of the sample world *)

Definition withSend (w : World)
  (f : TxObject -> Account -> Outcome string) : World :=
  {| DAPP_API := DAPP_API w;
     DVM_NETWORK_ID := DVM_NETWORK_ID w;
     isAddress := isAddress w;
     hexToNumber := hexToNumber w;
     web3_Contract := web3_Contract w;
     chain_assetLength := chain_assetLength w;
     chain_allAssets := chain_allAssets w;
     chain_assets := chain_assets w;
     chain_tokenLength := chain_tokenLength w;
     chain_allTokens := chain_allTokens w;
     chain_tokenToInfo := chain_tokenToInfo w;
     chain_symbol := chain_symbol w;
     chain_send := f;
     wallet_account := wallet_account w;
     wallet_networkId := wallet_networkId w;
     mpt_proof := mpt_proof w;
     util_nameAndLogo := util_nameAndLogo w;
     util_symbolAndDecimals := util_symbolAndDecimals w;
     util_tokenInfo := util_tokenInfo w;
     util_tokenBalance := util_tokenBalance w;
     indexer := indexer w |}.

Definition withAllTokens (w : World) (f : nat -> Outcome Address) : World :=
  {| DAPP_API := DAPP_API w;
     DVM_NETWORK_ID := DVM_NETWORK_ID w;
     isAddress := isAddress w;
     hexToNumber := hexToNumber w;
     web3_Contract := web3_Contract w;
     chain_assetLength := chain_assetLength w;
     chain_allAssets := chain_allAssets w;
     chain_assets := chain_assets w;
     chain_tokenLength := chain_tokenLength w;
     chain_allTokens := f;
     chain_tokenToInfo := chain_tokenToInfo w;
     chain_symbol := chain_symbol w;
     chain_send := chain_send w;
     wallet_account := wallet_account w;
     wallet_networkId := wallet_networkId w;
     mpt_proof := mpt_proof w;
     util_nameAndLogo := util_nameAndLogo w;
     util_symbolAndDecimals := util_symbolAndDecimals w;
     util_tokenInfo := util_tokenInfo w;
     util_tokenBalance := util_tokenBalance w;
     indexer := indexer w |}.

(** The sample world when the wallet's user declines every transaction. *)
Definition decliningWorld : World :=
  withSend (sampleWorld 43 0) (fun _ _ => Throw (MkError "User denied")).

(** The sample world when the second [allTokens] read fails. *)
Definition brokenListWorld : World :=
  withAllTokens (sampleWorld 43 0)
    (fun i => match i with
              | 1%nat => Throw (MkError "execution reverted")
              | _ => Ok "0xD0"
              end).

(** What [registerToken] may add to the trace by the time it returns: no
    notification, no proof request, no wait. *)
Definition registration_event (e : Event) : bool :=
  match e with
  | Notify _ _ | GetMPTProof _ _ | Delay _ => false
  | _ => true
  end.

(** The entry point that [registerToken] sends for a symbol type. *)
Definition registerEntry (stype : SymbolType) (a : Address) : TxObject :=
  methods backingContract
    (if isString stype then "registerToken" else "registerTokenBytes32")
    [AStr a].

Definition withIndexer (w : World)
  (f : nat -> Address -> Outcome (option IndexerRecord)) : World :=
  {| DAPP_API := DAPP_API w;
     DVM_NETWORK_ID := DVM_NETWORK_ID w;
     isAddress := isAddress w;
     hexToNumber := hexToNumber w;
     web3_Contract := web3_Contract w;
     chain_assetLength := chain_assetLength w;
     chain_allAssets := chain_allAssets w;
     chain_assets := chain_assets w;
     chain_tokenLength := chain_tokenLength w;
     chain_allTokens := chain_allTokens w;
     chain_tokenToInfo := chain_tokenToInfo w;
     chain_symbol := chain_symbol w;
     chain_send := chain_send w;
     wallet_account := wallet_account w;
     wallet_networkId := wallet_networkId w;
     mpt_proof := mpt_proof w;
     util_nameAndLogo := util_nameAndLogo w;
     util_symbolAndDecimals := util_symbolAndDecimals w;
     util_tokenInfo := util_tokenInfo w;
     util_tokenBalance := util_tokenBalance w;
     indexer := f |}.

(** The sample world when the first request to the indexer fails and every
    later one would be answered with the record. *)
Definition offlineWorld : World :=
  withIndexer (sampleWorld 43 0)
    (fun k _ => match k with
                | O => Throw (MkError "Network Error")
                | _ => Ok (Some sampleRecord)
                end).

(** The task that [getAllTokensDvm] maps over the indices. *)
Definition dvmTask (w : World) (currentAccount : Account) (index : nat)
  : M DvmToken :=
  address <- await (Call (methods mappingContract "allTokens" [ANum index]))
                   (chain_allTokens w index) ;;
  info <- await (Call (methods mappingContract "tokenToInfo" [AStr address]))
                (chain_tokenToInfo w address) ;;
  token <- getTokenInfo w (source info) currentAccount ;;
  ret {| dvm_info := info; dvm_token := token |}.

(** ** [Web3.utils.hexToNumber]

    The function of web3-utils 1.x: a falsy value is returned as it is; a
    string that is not [-]0x followed by hex digits throws; the number is
    built by BN's [toNumber], which throws above 53 bits. *)

Definition hexDigit (c : ascii) : option Z :=
  let code := Z.of_nat (nat_of_ascii c) in
  if (48 <=? code) && (code <=? 57) then Some (code - 48)          (* 0-9 *)
  else if (97 <=? code) && (code <=? 102) then Some (code - 87)    (* a-f *)
  else if (65 <=? code) && (code <=? 70) then Some (code - 55)     (* A-F *)
  else None.

Fixpoint hexValue (acc : Z) (digits : string) : option Z :=
  match digits with
  | EmptyString => Some acc
  | String c rest =>
      match hexDigit c with
      | Some d => hexValue (16 * acc + d) rest
      | None => None
      end
  end.

Definition quote : string := String (ascii_of_nat 34) EmptyString.

Definition notHexString (value : string) : Error :=
  MkError ("Given value " ++ quote ++ value ++ quote
             ++ " is not a valid hex string.")%string.

Definition unsafeNumber : Error :=
  MkError "Number can only safely store up to 53 bits".

Definition web3_hexToNumber (value : string) : Outcome Z :=
  if falsy_string value then Ok 0
  else
    let negative := match value with
                    | String "-"%char _ => true
                    | _ => false
                    end in
    let body := match value with
                | String "-"%char rest => rest
                | _ => value
                end in
    match body with
    | String "0"%char (String x digits) =>
        if Ascii.eqb x "x" || Ascii.eqb x "X" then
          match hexValue 0 digits with
          | Some v =>
              if v <? 2 ^ 53 then Ok (if negative then - v else v)
              else Throw unsafeNumber
          | None => Throw (notHexString value)
          end
        else Throw (notHexString value)
    | _ => Throw (notHexString value)
    end.

(** ** A registry with 20-byte addresses

    The sample world with web3's [hexToNumber] and three tokens on the
    backing contract: one registering (zero target), one registered and one
    with a target but no timestamp. *)

Definition tokenRegistering : Address :=
  "0x2260FAC5E5542a773Aa44fBCfeDf7C193bc2C599".
Definition tokenRegistered : Address :=
  "0x1F4E71cA23f2390669207a06dDDef70BDE75b679".
Definition tokenDegenerate : Address :=
  "0x514910771AF9Ca656af840dff83E8264EcF986CA".
Definition zeroAddress : string :=
  "0x0000000000000000000000000000000000000000".
Definition mappedAddress : string :=
  "0x6B175474E89094C44Da98b954EedeAC495271d0F".

Definition registryWorld : World :=
  let w := sampleWorld 43 0 in
  let isToken := fun s => String.eqb s tokenRegistering
                          || String.eqb s tokenRegistered
                          || String.eqb s tokenDegenerate in
  {| DAPP_API := DAPP_API w;
     DVM_NETWORK_ID := DVM_NETWORK_ID w;
     isAddress := isToken;
     hexToNumber := web3_hexToNumber;
     web3_Contract := fun s =>
       if String.eqb s "" || isToken s then Ok tt
       else Throw (MkError "Provided address is invalid");
     chain_assetLength := chain_assetLength w;
     chain_allAssets := chain_allAssets w;
     chain_assets := fun a =>
       if String.eqb a tokenRegistering then
         Ok {| target := zeroAddress; timestamp := 100 |}
       else if String.eqb a tokenRegistered then
         Ok {| target := mappedAddress; timestamp := 100 |}
       else Ok {| target := mappedAddress; timestamp := 0 |};
     chain_tokenLength := chain_tokenLength w;
     chain_allTokens := chain_allTokens w;
     chain_tokenToInfo := chain_tokenToInfo w;
     chain_symbol := chain_symbol w;
     chain_send := chain_send w;
     wallet_account := wallet_account w;
     wallet_networkId := wallet_networkId w;
     mpt_proof := mpt_proof w;
     util_nameAndLogo := util_nameAndLogo w;
     util_symbolAndDecimals := util_symbolAndDecimals w;
     util_tokenInfo := util_tokenInfo w;
     util_tokenBalance := util_tokenBalance w;
     indexer := indexer w |}.

(** The sample world when the encoding of a transaction throws on an argument
    that is not an address, as web3 does. *)
Definition invalidAddressError : Error :=
  MkError "invalid address".

Definition strictWorld : World :=
  withSend (sampleWorld 43 0)
    (fun t _ =>
       match tx_args t with
       | [AStr a] =>
           if isAddress (sampleWorld 43 0) a then Ok "0x7a"
           else Throw invalidAddressError
       | _ => Throw invalidAddressError
       end).

(** Where the status read left off and the account is known, what
    [registerToken] does for each way the symbol type is found, and for each
    answer to the send. *)
Definition afterSend (w : World) (st0 : State) (a : Address)
  (from : Account) (entry : TxObject) (probe : list Event)
  : Outcome (option Subscription) * State :=
  match chain_send w entry from with
  | Ok txHash =>
      (Ok (Some (handleAfter w (trace st0) a)),
       after st0 (GetMetamaskActiveAccount :: probe ++
                  [Send entry from; registerLog txHash; registerQuery w a]))
  | Throw e =>
      (Throw e,
       after st0 (GetMetamaskActiveAccount :: probe ++ [Send entry from]))
  | Pending =>
      (Pending,
       after st0 (GetMetamaskActiveAccount :: probe ++ [Send entry from]))
  end.
(** * Properties *)

Unset Implicit Arguments.

Ltac run :=
  unfold outcome, events, after, hasRegistered, getTokenRegisterStatus,
    getSymbolType, getMetamaskActiveAccount, send, isNetworkMatch,
    bind, ret, throw, try_catch, lift, emit, await in *;
  simpl in *.

Lemma invalid_address_iff (w : World) (a : Address) :
  invalid_address w a = true <-> a = "" \/ isAddress w a = false.
Proof.
  unfold invalid_address, falsy_string.
  rewrite orb_true_iff, String.eqb_eq, negb_true_iff. tauto.
Qed.

(** The status query on a valid address, whatever the target decodes to. *)
Lemma status_valid (w : World) (st : State) (a : Address)
  (r : RegistrationRecord) (n : Z) :
  invalid_address w a = false ->
  chain_assets w a = Ok r ->
  hexToNumber w (target r) = Ok n ->
  getTokenRegisterStatus w a st =
    (Ok (Some (if 0 <? timestamp r
               then if n =? 0 then Registering else Registered
               else Unregistered)),
     after st [Call (methods backingContract "assets" [AStr a])]).
Proof.
  intros Hv Hr Hn. run. rewrite Hv, Hr. simpl. rewrite Hn.
  unfold truthy_number.
  destruct (0 <? timestamp r), (n =? 0); reflexivity.
Qed.

Lemma status_invalid (w : World) (st : State) (a : Address) :
  invalid_address w a = true ->
  getTokenRegisterStatus w a st =
    (Ok None,
     after st [ConsoleWarn
       ("Token address is invalid, except an ERC20 token address. Received value: "
          ++ a)%string]).
Proof.
  intros Hv. run. rewrite Hv. reflexivity.
Qed.

(** When the library cannot turn the target into a number, the exception
    leaves the status query, whatever the timestamp. *)
Lemma status_target_undecodable (w : World) (st : State) (a : Address)
  (r : RegistrationRecord) (e : Error) :
  invalid_address w a = false ->
  chain_assets w a = Ok r ->
  hexToNumber w (target r) = Throw e ->
  getTokenRegisterStatus w a st =
    (Throw e, after st [Call (methods backingContract "assets" [AStr a])]).
Proof.
  intros Hv Hr Hn. run. rewrite Hv, Hr. simpl. rewrite Hn. reflexivity.
Qed.

(** The decision table on the number that the library gives for the target,
    when it gives one: Registering when [timestamp > 0] and the number is
    zero, Registered when [timestamp > 0] and it is not, Unregistered in every
    other case. *)
Theorem status_decision_table (w : World) (st : State) (a : Address)
  (r : RegistrationRecord) (n : Z) :
  invalid_address w a = false ->
  chain_assets w a = Ok r ->
  hexToNumber w (target r) = Ok n ->
  let status := outcome (getTokenRegisterStatus w a st) in
  (timestamp r > 0 -> n = 0 -> status = Ok (Some Registering)) /\
  (timestamp r > 0 -> n <> 0 -> status = Ok (Some Registered)) /\
  (~ timestamp r > 0 -> status = Ok (Some Unregistered)) /\
  (timestamp r = 0 -> n <> 0 -> status = Ok (Some Unregistered)).
Proof.
  intros Hv Hr Hn status. subst status.
  rewrite (status_valid w st a r n Hv Hr Hn). unfold outcome. simpl.
  repeat split; intros.
  - replace (0 <? timestamp r) with true by (symmetry; apply Z.ltb_lt; lia).
    subst n. reflexivity.
  - replace (0 <? timestamp r) with true by (symmetry; apply Z.ltb_lt; lia).
    replace (n =? 0) with false by (symmetry; apply Z.eqb_neq; assumption).
    reflexivity.
  - replace (0 <? timestamp r) with false by (symmetry; apply Z.ltb_ge; lia).
    reflexivity.
  - replace (0 <? timestamp r) with false by (symmetry; apply Z.ltb_ge; lia).
    reflexivity.
Qed.

Lemma status_decision_table_witness :
  outcome (getTokenRegisterStatus (sampleWorld 43 0) "0xE2" initialState)
    = Ok (Some Registering) /\
  outcome (getTokenRegisterStatus (sampleWorld 43 0) "0xAB" initialState)
    = Ok (Some Registered) /\
  outcome (getTokenRegisterStatus (sampleWorld 43 0) "0xCD" initialState)
    = Ok (Some Unregistered).
Proof.
  split; [| split].
  - apply (status_decision_table (sampleWorld 43 0) initialState "0xE2"
             {| target := "0x0"; timestamp := 100 |} 0);
      try reflexivity.
  - apply (status_decision_table (sampleWorld 43 0) initialState "0xAB"
             {| target := "0xABC"; timestamp := 100 |} 2748);
      try reflexivity; simpl; lia.
  - apply (status_decision_table (sampleWorld 43 0) initialState "0xCD"
             {| target := "0xABC"; timestamp := 0 |} 2748);
      try reflexivity; simpl; lia.
Defined.

(** What web3's [hexToNumber] does with a 20-byte address. *)
Lemma web3_hexToNumber_addresses :
  web3_hexToNumber zeroAddress = Ok 0 /\
  web3_hexToNumber mappedAddress = Throw unsafeNumber /\
  hexValue 0 "6B175474E89094C44Da98b954EedeAC495271d0F" =
    Some 611382286831621467233887798921843936019654057231 /\
  2 ^ 53 <= 611382286831621467233887798921843936019654057231.
Proof. repeat split; try reflexivity. vm_compute. discriminate. Qed.

(** Any target of 14 hex digits or more that is not below 2^53 is refused by
    web3's [hexToNumber]. *)
Lemma web3_hexToNumber_large (digits : string) (v : Z) :
  hexValue 0 digits = Some v ->
  2 ^ 53 <= v ->
  web3_hexToNumber ("0x" ++ digits)%string = Throw unsafeNumber.
Proof.
  intros Hv Hlarge. unfold web3_hexToNumber. cbn -[Z.pow Z.ltb hexValue].
  rewrite Hv.
  replace (v <? 2 ^ 53) with false
    by (symmetry; apply Z.ltb_ge; exact Hlarge).
  reflexivity.
Qed.

(** Under web3's [hexToNumber], the status query of a valid address whose
    target is not below 2^53 throws, whatever the timestamp. *)
Lemma status_throws_above_53_bits (w : World) (st : State) (a : Address)
  (r : RegistrationRecord) (digits : string) (v : Z) :
  invalid_address w a = false ->
  chain_assets w a = Ok r ->
  hexToNumber w (target r) = web3_hexToNumber (target r) ->
  target r = ("0x" ++ digits)%string ->
  hexValue 0 digits = Some v ->
  2 ^ 53 <= v ->
  getTokenRegisterStatus w a st =
    (Throw unsafeNumber,
     after st [Call (methods backingContract "assets" [AStr a])]).
Proof.
  intros Hv Hr Hweb Ht Hd Hlarge.
  apply (status_target_undecodable w st a r unsafeNumber Hv Hr).
  rewrite Hweb, Ht. apply (web3_hexToNumber_large digits v Hd Hlarge).
Qed.

(** C1: with web3's [hexToNumber], on the registry whose targets are 20-byte
    addresses.  The record with [timestamp > 0] and the zero target gives
    Registering.  The record with [timestamp > 0] and a non-zero target does
    not give Registered, and the record with [timestamp = 0] and a non-zero
    target does not give Unregistered: for both the query throws, the target
    being above 53 bits. *)
Theorem status_throws_on_address_target :
  (invalid_address registryWorld tokenRegistering = false /\
   chain_assets registryWorld tokenRegistering =
     Ok {| target := zeroAddress; timestamp := 100 |} /\
   outcome (getTokenRegisterStatus registryWorld tokenRegistering initialState)
     = Ok (Some Registering)) /\
  (invalid_address registryWorld tokenRegistered = false /\
   chain_assets registryWorld tokenRegistered =
     Ok {| target := mappedAddress; timestamp := 100 |} /\
   getTokenRegisterStatus registryWorld tokenRegistered initialState =
     (Throw unsafeNumber,
      after initialState
        [Call (methods backingContract "assets" [AStr tokenRegistered])])) /\
  (invalid_address registryWorld tokenDegenerate = false /\
   chain_assets registryWorld tokenDegenerate =
     Ok {| target := mappedAddress; timestamp := 0 |} /\
   getTokenRegisterStatus registryWorld tokenDegenerate initialState =
     (Throw unsafeNumber,
      after initialState
        [Call (methods backingContract "assets" [AStr tokenDegenerate])])).
Proof.
  split; [| split].
  - split; [reflexivity | split; reflexivity].
  - split; [reflexivity | split; [reflexivity |]].
    apply (status_target_undecodable registryWorld initialState
             tokenRegistered
             {| target := mappedAddress; timestamp := 100 |} unsafeNumber);
      reflexivity.
  - split; [reflexivity | split; [reflexivity |]].
    apply (status_target_undecodable registryWorld initialState
             tokenDegenerate
             {| target := mappedAddress; timestamp := 0 |} unsafeNumber);
      reflexivity.
Qed.

(** C7: for an invalid (or empty) address the status query does not throw; it
    logs one warning, returns the absent result and reads nothing from the
    chain. *)
Theorem status_invalid_address_absent (w : World) (st : State) (a : Address) :
  a = "" \/ isAddress w a = false ->
  let r := getTokenRegisterStatus w a st in
  outcome r = Ok None /\
  events r = trace st ++
    [ConsoleWarn
       ("Token address is invalid, except an ERC20 token address. Received value: "
          ++ a)%string] /\
  (forall t, ~ In (Call t) (skipn (List.length (trace st)) (events r))).
Proof.
  intros Ha r. subst r.
  rewrite (status_invalid w st a (proj2 (invalid_address_iff w a) Ha)).
  unfold outcome, events, after. simpl.
  repeat split.
  intros t. rewrite skipn_app, skipn_all, Nat.sub_diag. simpl.
  intros [H | []]. discriminate H.
Qed.

Lemma status_invalid_address_absent_witness :
  outcome (getTokenRegisterStatus (sampleWorld 43 0) "" initialState) = Ok None
  /\
  events (getTokenRegisterStatus (sampleWorld 43 0) "0xZZ" initialState) =
    [ConsoleWarn
       "Token address is invalid, except an ERC20 token address. Received value: 0xZZ"].
Proof.
  split.
  - apply (status_invalid_address_absent (sampleWorld 43 0) initialState "").
    left. reflexivity.
  - apply (status_invalid_address_absent (sampleWorld 43 0) initialState "0xZZ").
    right. reflexivity.
Defined.

Lemma hasRegistered_eq (w : World) (st : State) (a : Address) :
  hasRegistered w a st =
    match getTokenRegisterStatus w a st with
    | (Ok s, st') => (Ok (truthy_status s), st')
    | (Throw e, st') => (Throw e, st')
    | (Pending, st') => (Pending, st')
    end.
Proof.
  unfold hasRegistered, bind, ret.
  destruct (getTokenRegisterStatus w a st) as [[s | e |] st']; reflexivity.
Qed.

(** C3, as stated, fails at an invalid address: the status is absent, which is
    not Unregistered, and [hasRegistered] is false. *)
Lemma registered_iff_not_unregistered_fails :
  outcome (hasRegistered (sampleWorld 43 0) "" initialState) = Ok false /\
  outcome (getTokenRegisterStatus (sampleWorld 43 0) "" initialState) = Ok None
  /\ ~ registered_iff_not_unregistered (sampleWorld 43 0) initialState "".
Proof.
  split; [reflexivity | split; [reflexivity |]].
  unfold registered_iff_not_unregistered. intros [_ H].
  assert (Hex : exists s,
             outcome (getTokenRegisterStatus (sampleWorld 43 0) "" initialState)
               = Ok s /\ s <> Some Unregistered).
  { exists None. split; [reflexivity | discriminate]. }
  apply H in Hex. discriminate Hex.
Qed.

(** C3 (amended): [hasRegistered] returns true exactly when the status query
    returns Registering or Registered; for an invalid address the status is
    absent and [hasRegistered] returns false. *)
Theorem hasRegistered_iff_status (w : World) (st : State) (a : Address) :
  (outcome (hasRegistered w a st) = Ok true <->
   outcome (getTokenRegisterStatus w a st) = Ok (Some Registering) \/
   outcome (getTokenRegisterStatus w a st) = Ok (Some Registered)) /\
  (outcome (hasRegistered w a st) = Ok false <->
   outcome (getTokenRegisterStatus w a st) = Ok (Some Unregistered) \/
   outcome (getTokenRegisterStatus w a st) = Ok None) /\
  (invalid_address w a = true ->
   outcome (getTokenRegisterStatus w a st) = Ok None /\
   outcome (hasRegistered w a st) = Ok false).
Proof.
  rewrite hasRegistered_eq.
  split; [| split].
  - destruct (getTokenRegisterStatus w a st) as [[[[| |] |] | e |] st'];
      unfold outcome; simpl; split;
      try (intros [H | H]); try intros H;
      try discriminate; try reflexivity; auto.
  - destruct (getTokenRegisterStatus w a st) as [[[[| |] |] | e |] st'];
      unfold outcome; simpl; split;
      try (intros [H | H]); try intros H;
      try discriminate; try reflexivity; auto.
  - intros Hv. rewrite (status_invalid w st a Hv). split; reflexivity.
Qed.

Lemma hasRegistered_iff_status_witness :
  outcome (getTokenRegisterStatus (sampleWorld 43 0) "0xZZ" initialState)
    = Ok None /\
  outcome (hasRegistered (sampleWorld 43 0) "0xZZ" initialState) = Ok false.
Proof.
  apply (hasRegistered_iff_status (sampleWorld 43 0) initialState "0xZZ").
  reflexivity.
Defined.

(** C5: [getSymbolType] returns the result of the string-typed [symbol()]
    call with [isString: true] when that call succeeds; when it throws, be it
    in building the contract object or in the call, the symbol of the fallback
    resolver with [isString: false].  The error of the string-typed call never
    reaches the caller: only the fallback's own outcome does. *)
Theorem getSymbolType_spec (w : World) (st : State) (a : Address) :
  let probe := Call (methods (stringContract a) "symbol" []) in
  (forall s, web3_Contract w a = Ok tt -> chain_symbol w a = Ok s ->
     getSymbolType w a st =
       (Ok {| st_symbol := Some s; isString := true |}, after st [probe])) /\
  (forall e sd, web3_Contract w a = Ok tt -> chain_symbol w a = Throw e ->
     util_symbolAndDecimals w a = Ok sd ->
     getSymbolType w a st =
       (Ok {| st_symbol := sd_symbol sd; isString := false |},
        after st [probe; GetSymbolAndDecimals a])) /\
  (forall e sd, web3_Contract w a = Throw e ->
     util_symbolAndDecimals w a = Ok sd ->
     getSymbolType w a st =
       (Ok {| st_symbol := sd_symbol sd; isString := false |},
        after st [GetSymbolAndDecimals a])) /\
  (forall e,
     web3_Contract w a = Throw e \/
     (web3_Contract w a = Ok tt /\ chain_symbol w a = Throw e) ->
     outcome (getSymbolType w a st) =
       match util_symbolAndDecimals w a with
       | Ok sd => Ok {| st_symbol := sd_symbol sd; isString := false |}
       | Throw e' => Throw e'
       | Pending => Pending
       end).
Proof.
  intros probe. subst probe. split; [| split; [| split]].
  - intros s Hc Hs. run. rewrite Hc. simpl. rewrite Hs. reflexivity.
  - intros e sd Hc He Hsd. run. rewrite Hc. simpl. rewrite He, Hsd. simpl.
    rewrite <- app_assoc. reflexivity.
  - intros e sd Hc Hsd. run. rewrite Hc, Hsd. reflexivity.
  - intros e [Hc | [Hc He]]; run; rewrite Hc; simpl; [| rewrite He];
      destruct (util_symbolAndDecimals w a); reflexivity.
Qed.

Lemma getSymbolType_spec_witness :
  outcome (getSymbolType (sampleWorld 43 0) "0xCD" initialState) =
    Ok {| st_symbol := Some "CDT"; isString := true |} /\
  outcome (getSymbolType (sampleWorld 43 0) "0xE2" initialState) =
    Ok {| st_symbol := Some "B32"; isString := false |} /\
  getSymbolType (sampleWorld 43 0) "0xZZ" initialState =
    (Ok {| st_symbol := Some "B32"; isString := false |},
     after initialState [GetSymbolAndDecimals "0xZZ"]).
Proof.
  split; [| split].
  - rewrite (proj1 (getSymbolType_spec (sampleWorld 43 0) initialState "0xCD")
               "CDT" eq_refl eq_refl).
    reflexivity.
  - rewrite (proj1 (proj2
               (getSymbolType_spec (sampleWorld 43 0) initialState "0xE2"))
               (MkError "cannot decode string")
               {| sd_symbol := Some "B32"; sd_decimals := Some 18 |}
               eq_refl eq_refl eq_refl).
    reflexivity.
  - apply (proj1 (proj2 (proj2
             (getSymbolType_spec (sampleWorld 43 0) initialState "0xZZ")))
             (MkError "Provided address is invalid")
             {| sd_symbol := Some "B32"; sd_decimals := Some 18 |}
             eq_refl eq_refl).
Defined.

(** ** Registration *)

Lemma count_HttpGet_app (l1 l2 : list Event) :
  count_HttpGet (l1 ++ l2) = (count_HttpGet l1 + count_HttpGet l2)%nat.
Proof.
  unfold count_HttpGet. rewrite filter_app, length_app. reflexivity.
Qed.

Lemma status_valid_state (w : World) (st : State) (a : Address) :
  invalid_address w a = false ->
  snd (getTokenRegisterStatus w a st) =
    after st [Call (methods backingContract "assets" [AStr a])].
Proof.
  intros Hv. run. rewrite Hv.
  destruct (chain_assets w a) as [r | e |]; simpl; try reflexivity.
  destruct (hexToNumber w (target r)) as [n | e |]; simpl; try reflexivity.
  destruct (0 <? timestamp r), (truthy_number n); reflexivity.
Qed.

Lemma hasRegistered_state (w : World) (st : State) (a : Address) :
  snd (hasRegistered w a st) = snd (getTokenRegisterStatus w a st).
Proof.
  rewrite hasRegistered_eq.
  destruct (getTokenRegisterStatus w a st) as [[s | e |] st']; reflexivity.
Qed.

Lemma hasRegistered_invalid (w : World) (st : State) (a : Address) :
  invalid_address w a = true ->
  hasRegistered w a st =
    (Ok false,
     after st [ConsoleWarn
       ("Token address is invalid, except an ERC20 token address. Received value: "
          ++ a)%string]).
Proof.
  intros Hv. rewrite hasRegistered_eq, (status_invalid w st a Hv). reflexivity.
Qed.

Lemma monitorEventProof_eq (w : World) (st : State) (a : Address) :
  monitorEventProof w a st =
    (Ok (handleAfter w (trace st) a), after st [registerQuery w a]).
Proof. reflexivity. Qed.

Lemma registerToken_registered (w : World) (st st0 : State) (a : Address) :
  hasRegistered w a st = (Ok true, st0) ->
  registerToken w a st = (Ok None, st0).
Proof.
  intros H. unfold registerToken, bind. rewrite H. reflexivity.
Qed.

Lemma registerToken_attempt_string (w : World) (st st0 : State)
  (a : Address) (from : Account) (s : string) :
  hasRegistered w a st = (Ok false, st0) ->
  wallet_account w = Ok from ->
  web3_Contract w a = Ok tt ->
  chain_symbol w a = Ok s ->
  registerToken w a st =
    afterSend w st0 a from
      (methods backingContract "registerToken" [AStr a]) [symbolProbe a].
Proof.
  intros H Hfrom Hc Hs. unfold registerToken, afterSend.
  unfold bind at 1. rewrite H. simpl.
  run. rewrite Hfrom. simpl. rewrite Hc. simpl. rewrite Hs. simpl.
  destruct (chain_send w _ from) as [txHash | e |]; simpl;
    unfold monitorEventProof, axios_get, handleAfter, bind, ret; simpl;
    rewrite <- !app_assoc; simpl; try reflexivity.
  rewrite count_HttpGet_app. simpl. rewrite Nat.add_0_r. reflexivity.
Qed.

Lemma registerToken_attempt_bytes32 (w : World) (st st0 : State)
  (a : Address) (from : Account) (e : Error) (sd : SymbolDecimals) :
  hasRegistered w a st = (Ok false, st0) ->
  wallet_account w = Ok from ->
  web3_Contract w a = Ok tt ->
  chain_symbol w a = Throw e ->
  util_symbolAndDecimals w a = Ok sd ->
  registerToken w a st =
    afterSend w st0 a from
      (methods backingContract "registerTokenBytes32" [AStr a])
      [symbolProbe a; GetSymbolAndDecimals a].
Proof.
  intros H Hfrom Hc He Hsd. unfold registerToken, afterSend.
  unfold bind at 1. rewrite H. simpl.
  run. rewrite Hfrom. simpl. rewrite Hc. simpl. rewrite He. simpl.
  rewrite Hsd. simpl.
  destruct (chain_send w _ from) as [txHash | e' |]; simpl;
    unfold monitorEventProof, axios_get, handleAfter, bind, ret; simpl;
    rewrite <- !app_assoc; simpl; try reflexivity.
  rewrite count_HttpGet_app. simpl. rewrite Nat.add_0_r. reflexivity.
Qed.

Lemma registerToken_attempt_unbuilt (w : World) (st st0 : State)
  (a : Address) (from : Account) (e : Error) (sd : SymbolDecimals) :
  hasRegistered w a st = (Ok false, st0) ->
  wallet_account w = Ok from ->
  web3_Contract w a = Throw e ->
  util_symbolAndDecimals w a = Ok sd ->
  registerToken w a st =
    afterSend w st0 a from
      (methods backingContract "registerTokenBytes32" [AStr a])
      [GetSymbolAndDecimals a].
Proof.
  intros H Hfrom Hc Hsd. unfold registerToken, afterSend.
  unfold bind at 1. rewrite H. simpl.
  run. rewrite Hfrom. simpl. rewrite Hc. simpl. rewrite Hsd. simpl.
  destruct (chain_send w _ from) as [txHash | e' |]; simpl;
    unfold monitorEventProof, axios_get, handleAfter, bind, ret; simpl;
    rewrite <- !app_assoc; simpl; try reflexivity.
  rewrite count_HttpGet_app. simpl. rewrite Nat.add_0_r. reflexivity.
Qed.

(** C4: when [hasRegistered] is true, [registerToken] returns nothing and does
    nothing after the status read: no transaction, no monitoring.  Otherwise
    it probes the symbol type, sends one registration transaction
    ([registerToken] when the string-typed call succeeds,
    [registerTokenBytes32] when it throws, in the call or already in building
    the contract object), and only then starts the monitoring, whose handle it
    returns. *)
Theorem registerToken_spec (w : World) (st : State) (a : Address) :
  let st0 := snd (hasRegistered w a st) in
  (outcome (hasRegistered w a st) = Ok true ->
   registerToken w a st = (Ok None, st0) /\
   st0 = after st [Call (methods backingContract "assets" [AStr a])]) /\
  (forall from s txHash,
     outcome (hasRegistered w a st) = Ok false ->
     wallet_account w = Ok from ->
     web3_Contract w a = Ok tt ->
     chain_symbol w a = Ok s ->
     chain_send w (methods backingContract "registerToken" [AStr a]) from
       = Ok txHash ->
     registerToken w a st =
       (Ok (Some (handleAfter w (trace st0) a)),
        after st0
          [GetMetamaskActiveAccount; symbolProbe a;
           Send (methods backingContract "registerToken" [AStr a]) from;
           registerLog txHash; registerQuery w a])) /\
  (forall from e sd txHash,
     outcome (hasRegistered w a st) = Ok false ->
     wallet_account w = Ok from ->
     web3_Contract w a = Ok tt ->
     chain_symbol w a = Throw e ->
     util_symbolAndDecimals w a = Ok sd ->
     chain_send w (methods backingContract "registerTokenBytes32" [AStr a])
       from = Ok txHash ->
     registerToken w a st =
       (Ok (Some (handleAfter w (trace st0) a)),
        after st0
          [GetMetamaskActiveAccount; symbolProbe a; GetSymbolAndDecimals a;
           Send (methods backingContract "registerTokenBytes32" [AStr a]) from;
           registerLog txHash; registerQuery w a])) /\
  (forall from e sd txHash,
     outcome (hasRegistered w a st) = Ok false ->
     wallet_account w = Ok from ->
     web3_Contract w a = Throw e ->
     util_symbolAndDecimals w a = Ok sd ->
     chain_send w (methods backingContract "registerTokenBytes32" [AStr a])
       from = Ok txHash ->
     registerToken w a st =
       (Ok (Some (handleAfter w (trace st0) a)),
        after st0
          [GetMetamaskActiveAccount; GetSymbolAndDecimals a;
           Send (methods backingContract "registerTokenBytes32" [AStr a]) from;
           registerLog txHash; registerQuery w a])).
Proof.
  intros st0. subst st0. unfold outcome.
  destruct (hasRegistered w a st) as [o st0] eqn:H. simpl.
  split; [| split; [| split]].
  - intros Ho. subst o. split.
    + apply registerToken_registered. exact H.
    + assert (Hst : snd (hasRegistered w a st) = st0) by (rewrite H; reflexivity).
      destruct (invalid_address w a) eqn:Hv.
      * rewrite (hasRegistered_invalid w st a Hv) in H. discriminate H.
      * rewrite <- Hst, hasRegistered_state. apply status_valid_state. exact Hv.
  - intros from s txHash Ho Hfrom Hc Hs Htx. subst o.
    rewrite (registerToken_attempt_string w st st0 a from s H Hfrom Hc Hs).
    unfold afterSend. rewrite Htx. reflexivity.
  - intros from e sd txHash Ho Hfrom Hc He Hsd Htx. subst o.
    rewrite (registerToken_attempt_bytes32 w st st0 a from e sd
               H Hfrom Hc He Hsd).
    unfold afterSend. rewrite Htx. reflexivity.
  - intros from e sd txHash Ho Hfrom Hc Hsd Htx. subst o.
    rewrite (registerToken_attempt_unbuilt w st st0 a from e sd
               H Hfrom Hc Hsd).
    unfold afterSend. rewrite Htx. reflexivity.
Qed.

Lemma registerToken_spec_witness :
  registerToken (sampleWorld 43 0) "0xAB" initialState =
    (Ok None,
     after initialState [Call (methods backingContract "assets" [AStr "0xAB"])])
  /\
  events (registerToken (sampleWorld 43 0) "0xCD" initialState) =
    [Call (methods backingContract "assets" [AStr "0xCD"]);
     GetMetamaskActiveAccount; symbolProbe "0xCD";
     Send (methods backingContract "registerToken" [AStr "0xCD"]) "0xme";
     registerLog "0x7a"; registerQuery (sampleWorld 43 0) "0xCD"].
Proof.
  split.
  - destruct (proj1 (registerToken_spec (sampleWorld 43 0) initialState "0xAB")
                eq_refl) as [H1 H2].
    rewrite H1. reflexivity.
  - rewrite (proj1 (proj2
               (registerToken_spec (sampleWorld 43 0) initialState "0xCD"))
               "0xme" "CDT" "0x7a" eq_refl eq_refl eq_refl eq_refl eq_refl).
    reflexivity.
Defined.

Ltac prefix_leaf :=
  simpl; rewrite <- ?app_assoc; simpl;
  eexists; split; [reflexivity |];
  intros ? ?; split;
  [ intros ?; first [discriminate | eexists; reflexivity]
  | intros ? ?; first [discriminate | eexists; reflexivity] ].

Lemma registerToken_invalid_prefix (w : World) (st : State) (a : Address) :
  invalid_address w a = true ->
  exists rest,
    events (registerToken w a st) =
      trace st ++ [invalidWarning a; GetMetamaskActiveAccount] ++ rest /\
    (forall from, wallet_account w = Ok from ->
       (web3_Contract w a = Ok tt ->
        exists rest', rest = symbolProbe a :: rest') /\
       (forall e, web3_Contract w a = Throw e ->
        exists rest', rest = GetSymbolAndDecimals a :: rest')).
Proof.
  intros Hv. unfold registerToken, events.
  unfold bind at 1. rewrite (hasRegistered_invalid w st a Hv). simpl.
  unfold bind at 1. unfold getMetamaskActiveAccount, await, after. simpl.
  destruct (wallet_account w) as [from | e |] eqn:Hfrom;
    [| simpl; rewrite <- !app_assoc; simpl; exists [];
       (split; [reflexivity | intros from H; discriminate H]) ..].
  unfold bind at 1. unfold getSymbolType, try_catch.
  unfold bind at 1. unfold lift. simpl.
  destruct (web3_Contract w a) as [[] | e |]; simpl.
  - unfold bind at 1. unfold await. simpl.
    destruct (chain_symbol w a) as [s | e |]; simpl.
    + run. unfold monitorEventProof, axios_get, bind, ret. simpl.
      destruct (chain_send w _ from); prefix_leaf.
    + run. unfold monitorEventProof, axios_get, bind, ret. simpl.
      destruct (util_symbolAndDecimals w a); simpl;
        [destruct (chain_send w _ from) | |]; prefix_leaf.
    + prefix_leaf.
  - run. unfold monitorEventProof, axios_get, bind, ret. simpl.
    destruct (util_symbolAndDecimals w a); simpl;
      [destruct (chain_send w _ from) | |]; prefix_leaf.
  - prefix_leaf.
Qed.

(** C9: for an invalid address the status query returns the absent result and
    [hasRegistered] turns it into false, so [registerToken] does not stop at
    the address: after the warning it asks for the account and probes the
    symbol type (falling back when the contract object cannot be built or the
    call throws), and with a symbol type it applies [.send] to the
    registration entry point with that address.  Only what the collaborators
    answer decides how it ends. *)
Theorem registerToken_invalid_address (w : World) (st : State) (a : Address) :
  invalid_address w a = true ->
  let st0 := after st [invalidWarning a] in
  getTokenRegisterStatus w a st = (Ok None, st0) /\
  hasRegistered w a st = (Ok false, st0) /\
  (exists rest,
     events (registerToken w a st) =
       trace st ++ [invalidWarning a; GetMetamaskActiveAccount] ++ rest /\
     (forall from, wallet_account w = Ok from ->
        (web3_Contract w a = Ok tt ->
         exists rest', rest = symbolProbe a :: rest') /\
        (forall e, web3_Contract w a = Throw e ->
         exists rest', rest = GetSymbolAndDecimals a :: rest'))) /\
  (forall from e sd,
     wallet_account w = Ok from ->
     web3_Contract w a = Throw e ->
     util_symbolAndDecimals w a = Ok sd ->
     registerToken w a st =
       afterSend w st0 a from
         (methods backingContract "registerTokenBytes32" [AStr a])
         [GetSymbolAndDecimals a]) /\
  (forall from e sd,
     wallet_account w = Ok from ->
     web3_Contract w a = Ok tt ->
     chain_symbol w a = Throw e ->
     util_symbolAndDecimals w a = Ok sd ->
     registerToken w a st =
       afterSend w st0 a from
         (methods backingContract "registerTokenBytes32" [AStr a])
         [symbolProbe a; GetSymbolAndDecimals a]) /\
  (forall from s,
     wallet_account w = Ok from ->
     web3_Contract w a = Ok tt ->
     chain_symbol w a = Ok s ->
     registerToken w a st =
       afterSend w st0 a from
         (methods backingContract "registerToken" [AStr a]) [symbolProbe a]).
Proof.
  intros Hv st0. subst st0.
  pose proof (hasRegistered_invalid w st a Hv) as H.
  split; [apply status_invalid; exact Hv |].
  split; [exact H |].
  split; [apply registerToken_invalid_prefix; exact Hv |].
  split; [| split].
  - intros from e sd. apply registerToken_attempt_unbuilt. exact H.
  - intros from e sd. apply registerToken_attempt_bytes32. exact H.
  - intros from s. apply registerToken_attempt_string. exact H.
Qed.

Lemma registerToken_invalid_address_witness :
  registerToken strictWorld "0xZZ" initialState =
    (Throw invalidAddressError,
     after initialState
       [invalidWarning "0xZZ"; GetMetamaskActiveAccount;
        GetSymbolAndDecimals "0xZZ";
        Send (methods backingContract "registerTokenBytes32" [AStr "0xZZ"])
             "0xme"]).
Proof.
  destruct (registerToken_invalid_address strictWorld initialState "0xZZ"
              eq_refl) as (_ & _ & _ & H & _).
  rewrite (H "0xme" (MkError "Provided address is invalid")
             {| sd_symbol := Some "B32"; sd_decimals := Some 18 |}
             eq_refl eq_refl eq_refl).
  reflexivity.
Defined.

(** ** Monitoring *)

Lemma retry_forever (w : World) (fuel : nat) (st : State)
  (api : Promise (option IndexerRecord)) :
  api = Ok None \/ (exists e, api = Throw e) ->
  retryWhen_delay 3000 fuel (rx_map check_data (from api)) st =
    (Pending, after st (repeat (Delay 3000) fuel)).
Proof.
  intros Hapi. revert st.
  induction fuel as [| fuel IH]; intros st.
  - unfold after. simpl. rewrite app_nil_r. destruct st; reflexivity.
  - simpl. unfold try_catch, rx_map, from, lift, bind at 1.
    destruct Hapi as [-> | [e ->]]; simpl;
      unfold bind, emit; simpl; rewrite IH; unfold after; simpl;
      rewrite <- app_assoc; reflexivity.
Qed.

(** An absent answer to the one request is looked at again after every delay;
    no further request is sent and the proof is never asked for. *)
Lemma monitor_absent_answer (w : World) (st : State) (a : Address)
  (fuel : nat) :
  indexer w (count_HttpGet (trace st)) a = Ok None ->
  (s <- monitorEventProof w a ;; runSubscription w fuel s) st =
    (Pending, after st (registerQuery w a :: repeat (Delay 3000) fuel)).
Proof.
  intros Hnull. unfold bind at 1. rewrite monitorEventProof_eq.
  unfold runSubscription, pipeline, handleAfter. simpl. rewrite Hnull.
  unfold subscribe_proofSubject, switchMap, bind at 1.
  rewrite (retry_forever w fuel _ (Ok None) (or_introl eq_refl)).
  unfold after. simpl. rewrite <- app_assoc. reflexivity.
Qed.

Lemma count_HttpGet_delays (n : nat) :
  count_HttpGet (repeat (Delay 3000) n) = 0%nat.
Proof. induction n; [reflexivity | exact IHn]. Qed.

(** C2: the indexer answers null to the first two requests and a record to the
    third.  However long the monitoring runs, it sends one request only; every
    3000 units it looks at the same absent answer again, and it never reaches
    the proof fetch. *)
Theorem monitor_sends_one_query (fuel : nat) :
  let w := sampleWorld 43 2 in
  let r := (s <- monitorEventProof w "0xE2" ;; runSubscription w fuel s)
             initialState in
  (indexer w 0 "0xE2" = Ok None /\ indexer w 1 "0xE2" = Ok None /\
   indexer w 2 "0xE2" = Ok (Some sampleRecord)) /\
  outcome r = Pending /\
  events r = registerQuery w "0xE2" :: repeat (Delay 3000) fuel /\
  count_HttpGet (events r) = 1%nat /\
  (forall h k, ~ In (GetMPTProof h k) (events r)).
Proof.
  intros w r. subst r.
  rewrite (monitor_absent_answer w initialState "0xE2" fuel eq_refl).
  unfold outcome, events, after. simpl trace.
  split; [repeat split |].
  split; [reflexivity |]. split; [reflexivity |]. split.
  - change (registerQuery w "0xE2" :: repeat (Delay 3000) fuel)
      with ([registerQuery w "0xE2"] ++ repeat (Delay 3000) fuel).
    rewrite count_HttpGet_app, count_HttpGet_delays. reflexivity.
  - intros h k [H | H]; [discriminate H |].
    apply repeat_spec in H. discriminate H.
Qed.

(** With a record as the answer to the one request, one subscription to the
    source is enough: the proof is fetched and handed to the subject. *)
Lemma pipeline_record (w : World) (st : State) (fuel : nat)
  (d : IndexerRecord) :
  pipeline w (S fuel) (Ok (Some d)) st =
    match mpt_proof w (block_hash d) proofAddress with
    | Ok p =>
        (subject_next p ;; subject_complete)
          (after st [GetMPTProof (block_hash d) proofAddress])
    | Throw e =>
        subject_error e (after st [GetMPTProof (block_hash d) proofAddress])
    | Pending =>
        (Pending, after st [GetMPTProof (block_hash d) proofAddress])
    end.
Proof.
  unfold pipeline, subscribe_proofSubject, switchMap, getMPTProof.
  simpl. run.
  destruct (mpt_proof w (block_hash d) proofAddress); reflexivity.
Qed.

Lemma pipeline_delivers (w : World) (st : State) (fuel : nat)
  (d : IndexerRecord) (p : MPTProof) :
  mpt_proof w (block_hash d) proofAddress = Ok p ->
  isStopped (proofSubject st) = false ->
  let obs := observers (proofSubject st) in
  pipeline w (S fuel) (Ok (Some d)) st =
    (Ok tt,
     {| trace := trace st ++ GetMPTProof (block_hash d) proofAddress
                   :: notify_all obs (NNext p) ++ notify_all obs NComplete;
        proofSubject := {| observers := []; isStopped := true;
                           hasError := hasError (proofSubject st);
                           thrownError := thrownError (proofSubject st) |} |}).
Proof.
  intros Hp Hs obs. subst obs. rewrite pipeline_record, Hp.
  unfold bind, subject_next, subject_complete, after. simpl.
  rewrite Hs. simpl. rewrite <- !app_assoc. reflexivity.
Qed.

(** ** The shared subject *)

Lemma silent_ret {A} (a : A) : silent (ret a).
Proof.
  intros st Hs. split; [exact Hs |].
  exists []. simpl. rewrite app_nil_r. split; [reflexivity | constructor].
Qed.

Lemma silent_lift {A} (o : Outcome A) : silent (lift o).
Proof.
  intros st Hs. split; [exact Hs |].
  exists []. simpl. rewrite app_nil_r. split; [reflexivity | constructor].
Qed.

Lemma silent_throw {A} (e : Error) : silent (@throw A e).
Proof. apply (silent_lift (Throw e)). Qed.

Lemma silent_await {A} (e : Event) (o : Outcome A) :
  is_next e = false -> silent (await e o).
Proof.
  intros He st Hs. split; [exact Hs |].
  exists [e]. split; [reflexivity | repeat constructor; exact He].
Qed.

Lemma silent_emit (e : Event) : is_next e = false -> silent (emit e).
Proof.
  intros He st Hs. split; [exact Hs |].
  exists [e]. split; [reflexivity | repeat constructor; exact He].
Qed.

Lemma silent_bind {A B} (m : M A) (k : A -> M B) :
  silent m -> (forall a, silent (k a)) -> silent (bind m k).
Proof.
  intros Hm Hk st Hs. unfold bind.
  destruct (Hm st Hs) as [Hs1 [evs1 [Ht1 Hf1]]].
  destruct (m st) as [[a | e |] st1]; simpl in *;
    try (split; [exact Hs1 | exists evs1; split; assumption]).
  destruct (Hk a st1 Hs1) as [Hs2 [evs2 [Ht2 Hf2]]].
  split; [exact Hs2 |].
  exists (evs1 ++ evs2). rewrite Ht2, Ht1, app_assoc.
  split; [reflexivity | apply Forall_app; split; assumption].
Qed.

Lemma silent_try_catch {A} (m : M A) (h : Error -> M A) :
  silent m -> (forall e, silent (h e)) -> silent (try_catch m h).
Proof.
  intros Hm Hh st Hs. unfold try_catch.
  destruct (Hm st Hs) as [Hs1 [evs1 [Ht1 Hf1]]].
  destruct (m st) as [[a | e |] st1]; simpl in *;
    try (split; [exact Hs1 | exists evs1; split; assumption]).
  destruct (Hh e st1 Hs1) as [Hs2 [evs2 [Ht2 Hf2]]].
  split; [exact Hs2 |].
  exists (evs1 ++ evs2). rewrite Ht2, Ht1, app_assoc.
  split; [reflexivity | apply Forall_app; split; assumption].
Qed.

Ltac silence :=
  repeat first
    [ apply silent_ret | apply silent_lift | apply silent_throw
    | apply silent_await; reflexivity | apply silent_emit; reflexivity
    | apply silent_bind; [| intros ?]
    | apply silent_try_catch; [| intros ?]
    | match goal with
      | |- silent (if ?b then _ else _) => destruct b
      | |- silent (match ?o with Some _ => _ | None => _ end) => destruct o
      end ].

Lemma silent_getTokenRegisterStatus (w : World) (a : Address) :
  silent (getTokenRegisterStatus w a).
Proof. unfold getTokenRegisterStatus. silence. Qed.

Lemma silent_monitorEventProof (w : World) (a : Address) :
  silent (monitorEventProof w a).
Proof.
  intros st Hs. rewrite monitorEventProof_eq. split; [exact Hs |].
  exists [registerQuery w a]. split; [reflexivity | repeat constructor].
Qed.

Lemma silent_registerToken (w : World) (a : Address) :
  silent (registerToken w a).
Proof.
  unfold registerToken, hasRegistered, getMetamaskActiveAccount,
    getSymbolType, send.
  silence; try apply silent_getTokenRegisterStatus;
    try apply silent_monitorEventProof.
Qed.

Lemma notify_all_not_next (obs : list nat) (n : Notification) :
  (forall p, n <> NNext p) ->
  Forall (fun e => is_next e = false) (notify_all obs n).
Proof.
  intros Hn. unfold notify_all. apply Forall_forall. intros e He.
  apply in_map_iff in He. destruct He as [o [<- _]].
  destruct n; [exfalso; apply (Hn p); reflexivity | reflexivity | reflexivity].
Qed.

Lemma silent_subject_next (p : MPTProof) : silent (subject_next p).
Proof.
  intros st Hs. unfold subject_next. rewrite Hs. simpl.
  split; [exact Hs |].
  exists []. rewrite app_nil_r. split; [reflexivity | constructor].
Qed.

Lemma silent_subject_error (e : Error) : silent (subject_error e).
Proof.
  intros st Hs. unfold subject_error. simpl. split; [reflexivity |].
  eexists. split; [reflexivity |].
  apply notify_all_not_next. intros p; discriminate.
Qed.

Lemma silent_subject_complete : silent subject_complete.
Proof.
  intros st Hs. unfold subject_complete. simpl. split; [reflexivity |].
  eexists. split; [reflexivity |].
  apply notify_all_not_next. intros p; discriminate.
Qed.

Lemma silent_subscribeProof (o : nat) : silent (subscribeProof o).
Proof.
  intros st Hs. unfold subscribeProof. rewrite Hs.
  destruct (hasError (proofSubject st)).
  - destruct (thrownError (proofSubject st)) as [e |].
    + apply silent_emit; [reflexivity | exact Hs].
    + apply (silent_ret tt); exact Hs.
  - apply silent_emit; [reflexivity | exact Hs].
Qed.

Lemma silent_retryWhen_delay {A} (ms : Z) (fuel : nat) (src : Observable A) :
  silent src -> silent (retryWhen_delay ms fuel src).
Proof.
  intros Hsrc. induction fuel as [| fuel IH]; simpl.
  - apply silent_lift.
  - silence; assumption.
Qed.

Lemma silent_subscribe_proofSubject (src : Observable MPTProof) :
  silent src -> silent (subscribe_proofSubject src).
Proof.
  intros Hsrc st Hs. unfold subscribe_proofSubject.
  destruct (Hsrc st Hs) as [Hs1 [evs1 [Ht1 Hf1]]].
  destruct (src st) as [[p | e |] st1]; cbn [fst snd] in *.
  - assert (Hk : silent (subject_next p ;; subject_complete)).
    { apply silent_bind; [apply silent_subject_next |].
      intros _. apply silent_subject_complete. }
    destruct (Hk st1 Hs1) as [Hs2 [evs2 [Ht2 Hf2]]].
    split; [exact Hs2 |].
    exists (evs1 ++ evs2). rewrite Ht2, Ht1, app_assoc.
    split; [reflexivity | apply Forall_app; split; assumption].
  - destruct (silent_subject_error e st1 Hs1) as [Hs2 [evs2 [Ht2 Hf2]]].
    split; [exact Hs2 |].
    exists (evs1 ++ evs2). rewrite Ht2, Ht1, app_assoc.
    split; [reflexivity | apply Forall_app; split; assumption].
  - split; [exact Hs1 | exists evs1; split; assumption].
Qed.

Lemma silent_pipeline (w : World) (fuel : nat)
  (api : Promise (option IndexerRecord)) :
  silent (pipeline w fuel api).
Proof.
  unfold pipeline. apply silent_subscribe_proofSubject.
  unfold switchMap, getMPTProof, rx_map, from.
  silence. apply silent_retryWhen_delay. silence.
Qed.

Lemma silent_runAction (act : Action) : silent (runAction act).
Proof.
  destruct act as [o | w a fuel | w a fuel]; simpl.
  - apply silent_subscribeProof.
  - apply silent_bind; [apply silent_registerToken |].
    intros [sub |]; [apply silent_pipeline | apply silent_ret].
  - apply silent_bind; [apply silent_monitorEventProof |].
    intros sub. apply silent_pipeline.
Qed.

Lemma silent_runActions (acts : list Action) (st : State) :
  isStopped (proofSubject st) = true ->
  isStopped (proofSubject (runActions acts st)) = true /\
  exists evs, trace (runActions acts st) = trace st ++ evs /\
              Forall (fun e => is_next e = false) evs.
Proof.
  revert st. induction acts as [| act rest IH]; intros st Hs; simpl.
  - split; [exact Hs |]. exists []. rewrite app_nil_r.
    split; [reflexivity | constructor].
  - destruct (silent_runAction act st Hs) as [Hs1 [evs1 [Ht1 Hf1]]].
    destruct (IH _ Hs1) as [Hs2 [evs2 [Ht2 Hf2]]].
    split; [exact Hs2 |].
    exists (evs1 ++ evs2). rewrite Ht2, Ht1, app_assoc.
    split; [reflexivity | apply Forall_app; split; assumption].
Qed.

(** C10: every monitoring, whatever its address, hands its result to the one
    subject of the state.  When the proof fetch of a monitoring fails, the
    error is passed to that subject: each attached observer is notified of the
    error and the subject is stopped; whatever is done with the module
    afterwards, for any address, no observer is handed a proof again. *)
Theorem proof_fetch_failure_stops_stream (w : World) (st : State)
  (a : Address) (d : IndexerRecord) (e : Error) (fuel : nat)
  (later : list Action) :
  mpt_proof w (block_hash d) proofAddress = Throw e ->
  let sub := {| sub_address := a; sub_api := Ok (Some d) |} in
  let st1 := snd (runSubscription w (S fuel) sub st) in
  trace st1 =
    trace st ++ GetMPTProof (block_hash d) proofAddress
      :: notify_all (observers (proofSubject st)) (NError e) /\
  proofSubject st1 =
    {| observers := []; isStopped := true; hasError := true;
       thrownError := Some e |} /\
  isStopped (proofSubject (runActions later st1)) = true /\
  exists evs, trace (runActions later st1) = trace st1 ++ evs /\
              Forall (fun ev => is_next ev = false) evs.
Proof.
  intros He sub st1. subst st1 sub. unfold runSubscription. simpl sub_api.
  rewrite pipeline_record, He.
  unfold subject_error, after. simpl.
  split; [rewrite <- app_assoc; reflexivity |].
  split; [reflexivity |].
  apply silent_runActions. reflexivity.
Qed.

Lemma proof_fetch_failure_stops_stream_witness :
  trace (snd (runSubscription (sampleWorld 43 0) 1
                {| sub_address := "0xCD";
                   sub_api := Ok (Some unprovableRecord) |}
                (snd (subscribeProof 1 initialState)))) =
    [GetMPTProof "0xdead" proofAddress;
     Notify 1 (NError (MkError "no proof"))] /\
  exists evs,
    trace (runActions
             [ASubscribe 2; ARegister (sampleWorld 43 0) "0xCD" 4;
              AMonitor (sampleWorld 43 0) "0xE2" 4]
             (snd (runSubscription (sampleWorld 43 0) 1
                     {| sub_address := "0xCD";
                        sub_api := Ok (Some unprovableRecord) |}
                     (snd (subscribeProof 1 initialState))))) =
      [GetMPTProof "0xdead" proofAddress;
       Notify 1 (NError (MkError "no proof"))] ++ evs /\
    Forall (fun ev => is_next ev = false) evs.
Proof.
  destruct (proof_fetch_failure_stops_stream (sampleWorld 43 0)
              (snd (subscribeProof 1 initialState)) "0xCD" unprovableRecord
              (MkError "no proof") 0
              [ASubscribe 2; ARegister (sampleWorld 43 0) "0xCD" 4;
               AMonitor (sampleWorld 43 0) "0xE2" 4]
              eq_refl) as (H1 & _ & _ & evs & H2 & H3).
  split; [exact H1 |].
  exists evs. split; [| exact H3].
  rewrite H2. f_equal.
Defined.

(** ** Cross-chain transfer towards the source chain *)

Lemma crossSend_dvm_to_eth_gate (w : World) (st : State)
  (token recipient : Address) (amount : Z) :
  let gate := IsNetworkMatch (DVM_NETWORK_ID w) in
  (forall id, wallet_networkId w = Ok id -> id <> DVM_NETWORK_ID w ->
     crossSendErc20FromDvmToEth w token recipient amount st =
       (Throw networkMismatch, after st [gate])) /\
  (wallet_networkId w = Ok (DVM_NETWORK_ID w) ->
     crossSendErc20FromDvmToEth w token recipient amount st =
       (Ok (methods mappingContract "crossTransfer"
              [AStr token; AStr recipient; AStr (toString amount)]),
        after st [gate])).
Proof.
  intros gate. subst gate. unfold crossSendErc20FromDvmToEth. split.
  - intros id Hid Hne. run. rewrite Hid. simpl.
    replace (id =? DVM_NETWORK_ID w) with false
      by (symmetry; apply Z.eqb_neq; exact Hne).
    reflexivity.
  - intros Hid. run. rewrite Hid. simpl. rewrite Z.eqb_refl. reflexivity.
Qed.

(** C6: on a wallet connected to another network than the expected one (1
    instead of 43) the transfer fails with the mismatch error and nothing is
    sent.  On a wallet connected to the expected network the [crossTransfer]
    transaction object is built and returned, and it is not sent either: the
    only event is the network check. *)
Theorem crossSend_match_sends_nothing :
  let r1 := crossSendErc20FromDvmToEth (sampleWorld 1 0) "0xD0" "0xme" 15
              initialState in
  let r43 := crossSendErc20FromDvmToEth (sampleWorld 43 0) "0xD0" "0xme" 15
               initialState in
  (outcome r1 = Throw networkMismatch /\ events r1 = [IsNetworkMatch 43]) /\
  wallet_networkId (sampleWorld 43 0) = Ok (DVM_NETWORK_ID (sampleWorld 43 0))
  /\
  outcome r43 =
    Ok (methods mappingContract "crossTransfer"
          [AStr "0xD0"; AStr "0xme"; AStr "15"]) /\
  events r43 = [IsNetworkMatch 43] /\
  filter is_Send (events r43) = [].
Proof.
  intros r1 r43. subst r1 r43.
  destruct (crossSend_dvm_to_eth_gate (sampleWorld 1 0) initialState
              "0xD0" "0xme" 15) as [Hno _].
  destruct (crossSend_dvm_to_eth_gate (sampleWorld 43 0) initialState
              "0xD0" "0xme" 15) as [_ Hyes].
  rewrite (Hno 1 eq_refl ltac:(discriminate)), (Hyes eq_refl).
  repeat split.
Qed.

(** ** The token catalogue *)

Lemma promise_all_map {I A} (f : I -> M A) (v : I -> A)
  (tr : I -> list Event) (l : list I) (st : State) :
  (forall i, In i l -> run_task (proofSubject st) (f i) = (Ok (v i), tr i)) ->
  promise_all (map f l) st = (Ok (map v l), after st [Par (map tr l)]).
Proof.
  intros H. unfold promise_all, after.
  assert (Hrs : map (run_task (proofSubject st)) (map f l) =
                map (fun i => (Ok (v i), tr i)) l).
  { rewrite map_map. apply map_ext_in. exact H. }
  rewrite Hrs, !map_map. simpl.
  f_equal.
  clear. induction l as [| i l IH]; simpl; [reflexivity |].
  rewrite IH. reflexivity.
Qed.

Lemma getTokenInfo_ok (w : World) (st : State) (a : Address)
  (account : Account) (sd : SymbolDecimals) (bal : Z) :
  util_tokenInfo w a = Ok sd ->
  (truthy_string account = true -> util_tokenBalance w a account = Ok bal) ->
  getTokenInfo w a account st =
    (Ok {| address := a;
           symbol := or_default (sd_symbol sd) "";
           decimals := or_default (sd_decimals sd) 0;
           name := nl_name (util_nameAndLogo w a);
           logo := nl_logo (util_nameAndLogo w a);
           balance := if truthy_string account then bal else 0 |},
     after st (TokenInfoGetter a ::
               if truthy_string account then [GetTokenBalance a account]
               else [])).
Proof.
  intros Hsd Hbal. unfold getTokenInfo. run. rewrite Hsd. simpl.
  destruct (truthy_string account).
  - rewrite (Hbal eq_refl). simpl. rewrite <- app_assoc. reflexivity.
  - reflexivity.
Qed.

(** C8: with [tokenLength() = n], [getAllTokensDvm] starts one resolution per
    index [0 .. n-1], each asking [allTokens(index)] and [tokenToInfo] of the
    address that came back; every entry is decorated with the metadata of the
    resolved source address; the [n] composed records come back in index
    order. *)
Theorem getAllTokensDvm_spec (w : World) (st : State) (account : Account)
  (n : nat) (dvm : nat -> Address) (info : nat -> Info)
  (sd : nat -> SymbolDecimals) (bal : nat -> Z) :
  chain_tokenLength w = Ok n ->
  (forall i, (i < n)%nat -> chain_allTokens w i = Ok (dvm i)) ->
  (forall i, (i < n)%nat -> chain_tokenToInfo w (dvm i) = Ok (info i)) ->
  (forall i, (i < n)%nat -> util_tokenInfo w (source (info i)) = Ok (sd i)) ->
  (forall i, (i < n)%nat -> truthy_string account = true ->
     util_tokenBalance w (source (info i)) account = Ok (bal i)) ->
  let entry i := composed w account (info i) (sd i) (bal i) in
  let tokens := map entry (seq 0 n) in
  getAllTokensDvm w account st =
    (Ok tokens,
     after st
       [Call (methods mappingContract "tokenLength" []);
        Par (map (fun i => resolution account i (dvm i) (info i)) (seq 0 n))])
  /\ List.length tokens = n
  /\ (forall i, (i < n)%nat ->
        nth_error tokens i = Some (entry i) /\
        source (dvm_info (entry i)) = source (info i) /\
        address (dvm_token (entry i)) = source (info i) /\
        name (dvm_token (entry i)) =
          nl_name (util_nameAndLogo w (source (info i)))).
Proof.
  intros Hn Hdvm Hinfo Hsd Hbal entry tokens. subst tokens.
  split; [| split].
  - unfold getAllTokensDvm. unfold bind at 1, await at 1. rewrite Hn.
    unfold array_map_index. unfold bind at 1.
    rewrite (promise_all_map _ entry
               (fun i => resolution account i (dvm i) (info i))).
    + unfold ret, after. simpl. rewrite <- app_assoc. reflexivity.
    + intros i Hi. apply in_seq in Hi. simpl in Hi. destruct Hi as [_ Hi].
      unfold run_task.
      match goal with
      | |- context [fst (?task ?s0)] =>
          assert (Htask : task s0 =
                    (Ok (entry i),
                     after s0 (resolution account i (dvm i) (info i))))
      end.
      { unfold bind at 1, await at 1. rewrite (Hdvm i Hi).
        cbn [fst snd trace proofSubject]. unfold bind at 1, await at 1.
        rewrite (Hinfo i Hi). cbn [fst snd trace proofSubject].
        unfold bind at 1.
        rewrite (getTokenInfo_ok w _ (source (info i)) account (sd i) (bal i)
                   (Hsd i Hi) (Hbal i Hi)).
        unfold ret, after, resolution, entry, composed. simpl.
        destruct (truthy_string account); reflexivity. }
      rewrite Htask. reflexivity.
  - rewrite length_map, length_seq. reflexivity.
  - intros i Hi. split; [| repeat split].
    rewrite nth_error_map, nth_error_seq.
    replace (i <? n)%nat with true by (symmetry; apply Nat.ltb_lt; exact Hi).
    reflexivity.
Qed.

Lemma getAllTokensDvm_spec_witness :
  getAllTokensDvm (sampleWorld 43 0) "0xme" initialState =
    (Ok [composed (sampleWorld 43 0) "0xme"
           {| source := "0xAB"; backing := "0xBA" |}
           {| sd_symbol := Some "0xAB-sym"; sd_decimals := None |} 5;
         composed (sampleWorld 43 0) "0xme"
           {| source := "0xE2"; backing := "0xBA" |}
           {| sd_symbol := Some "0xE2-sym"; sd_decimals := None |} 5],
     after initialState
       [Call (methods mappingContract "tokenLength" []);
        Par [resolution "0xme" 0 "0xD0"
               {| source := "0xAB"; backing := "0xBA" |};
             resolution "0xme" 1 "0xD1"
               {| source := "0xE2"; backing := "0xBA" |}]]).
Proof.
  destruct (getAllTokensDvm_spec (sampleWorld 43 0) initialState "0xme" 2
              (fun i => match i with O => "0xD0" | _ => "0xD1" end)
              (fun i => match i with
                        | O => {| source := "0xAB"; backing := "0xBA" |}
                        | _ => {| source := "0xE2"; backing := "0xBA" |}
                        end)
              (fun i => match i with
                        | O => {| sd_symbol := Some "0xAB-sym";
                                  sd_decimals := None |}
                        | _ => {| sd_symbol := Some "0xE2-sym";
                                  sd_decimals := None |}
                        end)
              (fun _ => 5)
              eq_refl) as [H _].
  - intros [| [| i]] Hi; [reflexivity | reflexivity | lia].
  - intros [| [| i]] Hi; [reflexivity | reflexivity | lia].
  - intros [| [| i]] Hi; [reflexivity | reflexivity | lia].
  - intros i Hi Ht. reflexivity.
  - exact H.
Defined.

(** The exported entry point: without an account nothing is asked; with one,
    any network type other than ["eth"] lists the destination chain. *)
Lemma getAllTokens_dispatch (w : World) (st : State) (account : Account)
  (networkType : string) :
  (account = "" -> getAllTokens w account networkType st = (Ok [], st)) /\
  (account <> "" -> networkType <> "eth" ->
   getAllTokens w account networkType st =
     (l <- getAllTokensDvm w account ;;
      ret (map (fun t => (Some (dvm_info t), dvm_token t)) l)) st).
Proof.
  unfold getAllTokens, truthy_string, falsy_string. split.
  - intros ->. reflexivity.
  - intros Ha Hn.
    replace (account =? "")%string with false
      by (symmetry; apply String.eqb_neq; exact Ha).
    replace (networkType =? "eth")%string with false
      by (symmetry; apply String.eqb_neq; exact Hn).
    reflexivity.
Qed.

(** * Further properties of the module *)

(** ** Footprints *)

Lemma appended_after {A} (st : State) (r : Outcome A * State)
  (evs : list Event) :
  trace (snd r) = trace st ++ evs -> appended st r = evs.
Proof.
  intros H. unfold appended, events. rewrite H.
  rewrite skipn_app, skipn_all, Nat.sub_diag. reflexivity.
Qed.

Lemma confined_ret {A} (p : Event -> bool) (a : A) : confined p (ret a).
Proof.
  intros st. split; [reflexivity |].
  exists []. simpl. rewrite app_nil_r. split; [reflexivity | constructor].
Qed.

Lemma confined_lift {A} (p : Event -> bool) (o : Outcome A) :
  confined p (lift o).
Proof.
  intros st. split; [reflexivity |].
  exists []. simpl. rewrite app_nil_r. split; [reflexivity | constructor].
Qed.

Lemma confined_throw {A} (p : Event -> bool) (e : Error) :
  confined p (@throw A e).
Proof. apply (confined_lift p (Throw e)). Qed.

Lemma confined_await {A} (p : Event -> bool) (e : Event) (o : Outcome A) :
  event_all p e = true -> confined p (await e o).
Proof.
  intros He st. split; [reflexivity |].
  exists [e]. split; [reflexivity | repeat constructor; exact He].
Qed.

Lemma confined_emit (p : Event -> bool) (e : Event) :
  event_all p e = true -> confined p (emit e).
Proof.
  intros He st. split; [reflexivity |].
  exists [e]. split; [reflexivity | repeat constructor; exact He].
Qed.

Lemma confined_bind {A B} (p : Event -> bool) (m : M A) (k : A -> M B) :
  confined p m -> (forall a, confined p (k a)) -> confined p (bind m k).
Proof.
  intros Hm Hk st. unfold bind.
  destruct (Hm st) as [Hs1 [evs1 [Ht1 Hf1]]].
  destruct (m st) as [[a | e |] st1]; cbn [fst snd] in *;
    try (split; [exact Hs1 | exists evs1; split; assumption]).
  destruct (Hk a st1) as [Hs2 [evs2 [Ht2 Hf2]]].
  split; [rewrite Hs2; exact Hs1 |].
  exists (evs1 ++ evs2). rewrite Ht2, Ht1, app_assoc.
  split; [reflexivity | apply Forall_app; split; assumption].
Qed.

Lemma confined_try_catch {A} (p : Event -> bool) (m : M A)
  (h : Error -> M A) :
  confined p m -> (forall e, confined p (h e)) -> confined p (try_catch m h).
Proof.
  intros Hm Hh st. unfold try_catch.
  destruct (Hm st) as [Hs1 [evs1 [Ht1 Hf1]]].
  destruct (m st) as [[a | e |] st1]; cbn [fst snd] in *;
    try (split; [exact Hs1 | exists evs1; split; assumption]).
  destruct (Hh e st1) as [Hs2 [evs2 [Ht2 Hf2]]].
  split; [rewrite Hs2; exact Hs1 |].
  exists (evs1 ++ evs2). rewrite Ht2, Ht1, app_assoc.
  split; [reflexivity | apply Forall_app; split; assumption].
Qed.

Lemma confined_promise_all {A} (p : Event -> bool) (tasks : list (M A)) :
  (forall task, In task tasks -> confined p task) ->
  confined p (promise_all tasks).
Proof.
  intros Htasks st. unfold promise_all. cbn [fst snd trace proofSubject].
  split; [reflexivity |].
  eexists. split; [reflexivity |].
  constructor; [| constructor].
  simpl. rewrite map_map. apply forallb_forall. intros branch Hb.
  apply in_map_iff in Hb. destruct Hb as [task [<- Htask]].
  destruct (Htasks task Htask {| trace := []; proofSubject := proofSubject st |})
    as [_ [evs [Ht Hf]]].
  unfold run_task. cbn [fst snd]. rewrite Ht. simpl.
  apply forallb_forall. intros e He.
  rewrite Forall_forall in Hf. apply Hf. exact He.
Qed.

Ltac confine :=
  repeat first
    [ apply confined_ret | apply confined_lift | apply confined_throw
    | apply confined_await; reflexivity | apply confined_emit; reflexivity
    | apply confined_bind; [| intros ?]
    | apply confined_try_catch; [| intros ?]
    | match goal with
      | |- confined _ (if ?b then _ else _) => destruct b
      | |- confined _ (match ?o with Some _ => _ | None => _ end) =>
          destruct o
      end ].

Lemma confined_getTokenRegisterStatus (w : World) (a : Address) :
  confined passive (getTokenRegisterStatus w a).
Proof. unfold getTokenRegisterStatus. confine. Qed.

Lemma confined_hasRegistered (w : World) (a : Address) :
  confined passive (hasRegistered w a).
Proof.
  unfold hasRegistered. confine. apply confined_getTokenRegisterStatus.
Qed.

Lemma confined_getSymbolType (w : World) (a : Address) :
  confined passive (getSymbolType w a).
Proof. unfold getSymbolType. confine. Qed.

Lemma confined_getTokenInfo (p : Event -> bool) (w : World) (a : Address)
  (account : Account) :
  p (TokenInfoGetter a) = true ->
  p (GetTokenBalance a account) = true ->
  confined p (getTokenInfo w a account).
Proof.
  intros H1 H2. unfold getTokenInfo.
  apply confined_bind; [apply confined_await; exact H1 | intros sd].
  apply confined_bind; [| intros bal; apply confined_ret].
  destruct (truthy_string account);
    [apply confined_await; exact H2 | apply confined_ret].
Qed.

Lemma confined_getAllTokensDvm (p : Event -> bool) (w : World)
  (account : Account) :
  (forall e, catalogue_read mappingContract e = true -> p e = true) ->
  confined p (getAllTokensDvm w account).
Proof.
  intros Hp. unfold getAllTokensDvm, array_map_index.
  apply confined_bind; [apply confined_await; apply Hp; reflexivity |].
  intros n.
  apply confined_bind; [| intros l; apply confined_ret].
  apply confined_promise_all. intros task Htask.
  apply in_map_iff in Htask. destruct Htask as [i [<- _]].
  apply confined_bind; [apply confined_await; apply Hp; reflexivity |].
  intros dvm.
  apply confined_bind; [apply confined_await; apply Hp; reflexivity |].
  intros info.
  apply confined_bind; [| intros t; apply confined_ret].
  apply confined_getTokenInfo; apply Hp; reflexivity.
Qed.

Lemma confined_getAllTokensEthereum (p : Event -> bool) (w : World)
  (account : Account) :
  (forall e, catalogue_read backingContract e = true -> p e = true) ->
  confined p (getAllTokensEthereum w account).
Proof.
  intros Hp. unfold getAllTokensEthereum, array_map_index.
  apply confined_bind; [apply confined_await; apply Hp; reflexivity |].
  intros n.
  apply confined_bind; [| intros l; apply confined_ret].
  apply confined_promise_all. intros task Htask.
  apply in_map_iff in Htask. destruct Htask as [i [<- _]].
  apply confined_bind; [apply confined_await; apply Hp; reflexivity |].
  intros a.
  apply confined_getTokenInfo; apply Hp; reflexivity.
Qed.

Lemma confined_getAllTokens (p : Event -> bool) (w : World)
  (account : Account) (networkType : string) :
  (forall e, catalogue_read (catalogue_contract networkType) e = true ->
             p e = true) ->
  confined p (getAllTokens w account networkType).
Proof.
  unfold getAllTokens, catalogue_contract. intros Hp.
  destruct (negb (truthy_string account)); [apply confined_ret |].
  destruct (networkType =? "eth")%string.
  - apply confined_bind; [| intros l; apply confined_ret].
    apply confined_getAllTokensEthereum. exact Hp.
  - apply confined_bind; [| intros l; apply confined_ret].
    apply confined_getAllTokensDvm. exact Hp.
Qed.

Lemma catalogue_read_passive (c : Contract) (e : Event) :
  catalogue_read c e = true -> passive e = true.
Proof. destruct e; simpl; intros H; try reflexivity; discriminate H. Qed.

(** ** Status queries *)

(** X1: the status is absent exactly for an invalid address; the query of a valid
    address makes the one [assets] read, whatever the chain and the decoding
    of the target answer. *)
Theorem status_absent_iff_invalid (w : World) (st : State) (a : Address) :
  (outcome (getTokenRegisterStatus w a st) = Ok None <->
   invalid_address w a = true) /\
  (invalid_address w a = false ->
   appended st (getTokenRegisterStatus w a st) =
     [Call (methods backingContract "assets" [AStr a])]).
Proof.
  split; [split |].
  - intros H. destruct (invalid_address w a) eqn:Hv; [reflexivity |].
    exfalso. revert H. run. rewrite Hv.
    destruct (chain_assets w a) as [r | e |]; simpl; try discriminate.
    destruct (hexToNumber w (target r)) as [n | e |]; simpl; try discriminate.
    destruct (0 <? timestamp r), (truthy_number n); discriminate.
  - intros Hv. rewrite (status_invalid w st a Hv). reflexivity.
  - intros Hv. apply appended_after.
    rewrite (status_valid_state w st a Hv). reflexivity.
Qed.

Lemma status_absent_iff_invalid_witness :
  appended initialState
    (getTokenRegisterStatus (sampleWorld 43 0) "0xAB" initialState) =
    [Call (methods backingContract "assets" [AStr "0xAB"])].
Proof.
  apply (status_absent_iff_invalid (sampleWorld 43 0) initialState "0xAB").
  reflexivity.
Defined.

Lemma hasRegistered_valid (w : World) (st : State) (a : Address)
  (r : RegistrationRecord) (n : Z) :
  invalid_address w a = false ->
  chain_assets w a = Ok r ->
  hexToNumber w (target r) = Ok n ->
  hasRegistered w a st =
    (Ok (0 <? timestamp r),
     after st [Call (methods backingContract "assets" [AStr a])]).
Proof.
  intros Hv Hr Hn.
  rewrite hasRegistered_eq, (status_valid w st a r n Hv Hr Hn).
  destruct (0 <? timestamp r), (n =? 0); reflexivity.
Qed.

(** X2: once the record of a valid address is read and its target decoded,
    whether the token counts as registered depends on the timestamp only:
    [hasRegistered] is [timestamp > 0], whatever the target. *)
Theorem hasRegistered_timestamp_only (w : World) (st : State) (a : Address)
  (r : RegistrationRecord) (n : Z) :
  invalid_address w a = false ->
  chain_assets w a = Ok r ->
  hexToNumber w (target r) = Ok n ->
  outcome (hasRegistered w a st) = Ok (0 <? timestamp r).
Proof.
  intros Hv Hr Hn. rewrite (hasRegistered_valid w st a r n Hv Hr Hn).
  reflexivity.
Qed.

Lemma hasRegistered_timestamp_only_witness :
  outcome (hasRegistered (sampleWorld 43 0) "0xE2" initialState) = Ok true /\
  outcome (hasRegistered (sampleWorld 43 0) "0xCD" initialState) = Ok false.
Proof.
  split.
  - apply (hasRegistered_timestamp_only (sampleWorld 43 0) initialState "0xE2"
             {| target := "0x0"; timestamp := 100 |} 0); reflexivity.
  - apply (hasRegistered_timestamp_only (sampleWorld 43 0) initialState "0xCD"
             {| target := "0xABC"; timestamp := 0 |} 2748); reflexivity.
Defined.

(** X3: [hasRegistered] answers true only for a valid address whose record was
    read with a positive timestamp and a target the library could decode. *)
Theorem hasRegistered_true_inv (w : World) (st : State) (a : Address) :
  outcome (hasRegistered w a st) = Ok true ->
  invalid_address w a = false /\
  exists r n, chain_assets w a = Ok r /\
              hexToNumber w (target r) = Ok n /\
              timestamp r > 0.
Proof.
  intros H. destruct (invalid_address w a) eqn:Hv.
  - rewrite (hasRegistered_invalid w st a Hv) in H. discriminate H.
  - split; [reflexivity |].
    destruct (chain_assets w a) as [r | e |] eqn:Hr;
      try (revert H; run; rewrite Hv, Hr; discriminate).
    destruct (hexToNumber w (target r)) as [n | e |] eqn:Hn;
      try (revert H; run; rewrite Hv, Hr; simpl; rewrite Hn; discriminate).
    exists r, n.
    rewrite (hasRegistered_valid w st a r n Hv Hr Hn) in H.
    unfold outcome in H. cbn [fst] in H. injection H as Ht.
    apply Z.ltb_lt in Ht.
    split; [reflexivity | split; [exact Hn | lia]].
Qed.

Lemma hasRegistered_true_inv_witness :
  invalid_address (sampleWorld 43 0) "0xAB" = false /\
  exists r n, chain_assets (sampleWorld 43 0) "0xAB" = Ok r /\
              hexToNumber (sampleWorld 43 0) (target r) = Ok n /\
              timestamp r > 0.
Proof.
  apply (hasRegistered_true_inv (sampleWorld 43 0) initialState "0xAB").
  reflexivity.
Defined.

(** ** What only [registerToken] and the monitoring do *)

(** X4: every other entry point of the module leaves the proof subject as it is
    and neither sends a transaction, nor asks the indexer or the proof
    generator, nor waits, nor notifies an observer, also inside the parallel
    resolutions of the catalogue. *)
Theorem queries_are_passive (w : World) (a b : Address) (account : Account)
  (networkType : string) (amount : Z) (proof : MPTProof) :
  confined passive (getTokenRegisterStatus w a) /\
  confined passive (hasRegistered w a) /\
  confined passive (getSymbolType w a) /\
  confined passive (getTokenInfo w a account) /\
  confined passive (getAllTokens w account networkType) /\
  confined passive (confirmRegister w proof) /\
  confined passive (crossSendErc20FromEthToDvm w a b amount) /\
  confined passive (crossSendErc20FromDvmToEth w a b amount).
Proof.
  repeat apply conj.
  - apply confined_getTokenRegisterStatus.
  - apply confined_hasRegistered.
  - apply confined_getSymbolType.
  - apply confined_getTokenInfo; reflexivity.
  - apply confined_getAllTokens. intros e. apply catalogue_read_passive.
  - unfold confirmRegister. confine.
  - unfold crossSendErc20FromEthToDvm. confine.
  - unfold crossSendErc20FromDvmToEth, isNetworkMatch. confine.
Qed.

(** X5: [getAllTokens] asks nothing without an account; with one it reads the
    backing contract only for the network type ["eth"] and the mapping
    contract only for any other, besides the metadata requests. *)
Theorem getAllTokens_one_chain (w : World) (st : State) (account : Account)
  (networkType : string) :
  getAllTokens w "" networkType st = (Ok [], st) /\
  confined (catalogue_read (catalogue_contract networkType))
    (getAllTokens w account networkType).
Proof.
  split; [reflexivity |].
  apply confined_getAllTokens. intros e H. exact H.
Qed.

(** ** Registration, for every answer of the collaborators *)

Lemma passive_not_Send (evs : list Event) :
  Forall (fun e => event_all passive e = true) evs ->
  filter is_Send evs = [].
Proof.
  induction 1 as [| e evs He _ IH]; [reflexivity |].
  simpl. rewrite IH. destruct e; simpl in *; try reflexivity. discriminate He.
Qed.

Lemma passive_not_HttpGet (evs : list Event) :
  Forall (fun e => event_all passive e = true) evs ->
  count_HttpGet evs = 0%nat.
Proof.
  unfold count_HttpGet.
  induction 1 as [| e evs He _ IH]; [reflexivity |].
  simpl. destruct e; simpl in *; try exact IH. discriminate He.
Qed.

Lemma getSymbolType_outcome (w : World) (a : Address) (st1 st2 : State) :
  outcome (getSymbolType w a st1) = outcome (getSymbolType w a st2).
Proof.
  run. destruct (web3_Contract w a) as [[] | e |]; simpl.
  - destruct (chain_symbol w a); simpl; try reflexivity.
    destruct (util_symbolAndDecimals w a); reflexivity.
  - destruct (util_symbolAndDecimals w a); reflexivity.
  - reflexivity.
Qed.

Lemma getSymbolType_run (w : World) (a : Address) (st : State) :
  exists evs,
    getSymbolType w a st = (outcome (getSymbolType w a st), after st evs) /\
    filter is_Send evs = [] /\ count_HttpGet evs = 0%nat.
Proof.
  run. destruct (web3_Contract w a) as [[] | e |]; simpl.
  - destruct (chain_symbol w a); simpl.
    + eexists. split; [reflexivity | split; reflexivity].
    + destruct (util_symbolAndDecimals w a); simpl; rewrite <- app_assoc;
        eexists; (split; [reflexivity | split; reflexivity]).
    + eexists. split; [reflexivity | split; reflexivity].
  - destruct (util_symbolAndDecimals w a); simpl;
      eexists; (split; [reflexivity | split; reflexivity]).
  - exists []. rewrite app_nil_r. split; [| split; reflexivity].
    destruct st; reflexivity.
Qed.

(** What follows the status read when the token is not registered. *)
Lemma registerToken_unregistered (w : World) (st st0 : State) (a : Address) :
  hasRegistered w a st = (Ok false, st0) ->
  registerToken w a st =
    (from <- getMetamaskActiveAccount w ;;
     stype <- getSymbolType w a ;;
     txHash <- send w (registerEntry stype a) from ;;
     emit (registerLog txHash) ;;
     s <- monitorEventProof w a ;;
     ret (Some s)) st0.
Proof.
  intros H. unfold registerToken, bind. rewrite H. cbn [negb].
  destruct (getMetamaskActiveAccount w st0) as [[from | e |] st1];
    try reflexivity.
  destruct (getSymbolType w a st1) as [[stype | e |] st2]; try reflexivity.
  unfold registerEntry. destruct (isString stype); reflexivity.
Qed.

Lemma registerToken_tail (w : World) (st st0 : State) (a : Address) :
  hasRegistered w a st = (Ok false, st0) ->
  exists rest,
    snd (registerToken w a st) = after st0 rest /\
    (filter is_Send rest = [] \/
     exists from stype,
       filter is_Send rest = [Send (registerEntry stype a) from] /\
       wallet_account w = Ok from).
Proof.
  intros H. rewrite (registerToken_unregistered w st st0 a H).
  unfold bind at 1. unfold getMetamaskActiveAccount, await.
  destruct (wallet_account w) as [from | e |] eqn:Hfrom;
    try (exists [GetMetamaskActiveAccount]; split; [reflexivity | left; reflexivity]).
  unfold bind at 1.
  match goal with
  | |- context [getSymbolType w a ?s] =>
      destruct (getSymbolType_run w a s) as [evsP [HP [HsP _]]];
      rewrite HP; destruct (outcome (getSymbolType w a s)) as [stype | e |]
  end;
    try (exists ([GetMetamaskActiveAccount] ++ evsP); split;
         [unfold after; simpl; rewrite <- app_assoc; reflexivity
         | left; rewrite filter_app, HsP; reflexivity]).
  unfold bind at 1. unfold send, await, after. cbn [trace proofSubject].
  destruct (chain_send w (registerEntry stype a) from) as [txHash | e |].
  - exists ([GetMetamaskActiveAccount] ++ evsP ++
            [Send (registerEntry stype a) from; registerLog txHash;
             registerQuery w a]).
    split.
    + unfold bind, emit, monitorEventProof, axios_get, ret. simpl.
      rewrite <- !app_assoc. reflexivity.
    + right. exists from, stype. rewrite !filter_app, HsP.
      split; reflexivity.
  - exists ([GetMetamaskActiveAccount] ++ evsP ++
            [Send (registerEntry stype a) from]).
    split.
    + simpl. rewrite <- !app_assoc. reflexivity.
    + right. exists from, stype. rewrite !filter_app, HsP.
      split; reflexivity.
  - exists ([GetMetamaskActiveAccount] ++ evsP ++
            [Send (registerEntry stype a) from]).
    split.
    + simpl. rewrite <- !app_assoc. reflexivity.
    + right. exists from, stype. rewrite !filter_app, HsP.
      split; reflexivity.
Qed.

(** X6: [registerToken] sends at most one transaction, whatever the collaborators
    answer; when it sends one, it is one of the two registration entry points
    for that address, from the active account, and [hasRegistered] had
    answered false. *)
Theorem registerToken_sends_at_most_once (w : World) (st : State)
  (a : Address) :
  let sent := filter is_Send (appended st (registerToken w a st)) in
  sent = [] \/
  exists from stype,
    sent = [Send (registerEntry stype a) from] /\
    outcome (hasRegistered w a st) = Ok false /\
    wallet_account w = Ok from.
Proof.
  intros sent. subst sent.
  destruct (confined_hasRegistered w a st) as [_ [evs0 [Ht0 Hf0]]].
  pose proof (passive_not_Send evs0 Hf0) as Hs0.
  destruct (hasRegistered w a st) as [o st0] eqn:H. cbn [fst snd] in *.
  assert (Hskip : forall rest,
            snd (registerToken w a st) = after st0 rest ->
            filter is_Send (appended st (registerToken w a st)) =
              filter is_Send rest).
  { intros rest Hr.
    rewrite (appended_after st _ (evs0 ++ rest)).
    - rewrite filter_app, Hs0. reflexivity.
    - rewrite Hr. unfold after. simpl. rewrite Ht0, app_assoc. reflexivity. }
  assert (Hsame : forall o', registerToken w a st = (o', st0) ->
            filter is_Send (appended st (registerToken w a st)) = []).
  { intros o' Ho'. rewrite (Hskip []); [reflexivity |].
    rewrite Ho'. unfold after. simpl. rewrite app_nil_r.
    destruct st0; reflexivity. }
  destruct o as [[|] | e |].
  - left. apply (Hsame (Ok None)).
    apply registerToken_registered. exact H.
  - destruct (registerToken_tail w st st0 a H) as [rest [Hr Hcase]].
    rewrite (Hskip rest Hr).
    destruct Hcase as [Hnone | [from [stype [Hone Hfrom]]]].
    + left. exact Hnone.
    + right. exists from, stype. unfold outcome. simpl. auto.
  - left. apply (Hsame (Throw e)).
    unfold registerToken, bind at 1. rewrite H. reflexivity.
  - left. apply (Hsame Pending).
    unfold registerToken, bind at 1. rewrite H. reflexivity.
Qed.

(** X7: when the wallet rejects the registration transaction, the error reaches
    the caller of [registerToken]: the transaction was attempted once, no
    request goes to the indexer and the proof subject is left as it is. *)
Theorem registerToken_send_rejected (w : World) (st : State) (a : Address)
  (from : Account) (stype : SymbolType) (e : Error) :
  outcome (hasRegistered w a st) = Ok false ->
  wallet_account w = Ok from ->
  outcome (getSymbolType w a st) = Ok stype ->
  chain_send w (registerEntry stype a) from = Throw e ->
  let r := registerToken w a st in
  outcome r = Throw e /\
  filter is_Send (appended st r) = [Send (registerEntry stype a) from] /\
  count_HttpGet (appended st r) = 0%nat /\
  proofSubject (snd r) = proofSubject st.
Proof.
  intros Hreg Hfrom Hstype Hsend r. subst r.
  destruct (confined_hasRegistered w a st) as [Hsub [evs0 [Ht0 Hf0]]].
  destruct (hasRegistered w a st) as [o st0] eqn:H.
  unfold outcome in Hreg. cbn [fst snd] in *. subst o.
  assert (Hrun : exists evsP,
            registerToken w a st =
              (Throw e,
               after st0 ([GetMetamaskActiveAccount] ++ evsP ++
                          [Send (registerEntry stype a) from])) /\
            filter is_Send evsP = [] /\ count_HttpGet evsP = 0%nat).
  { rewrite (registerToken_unregistered w st st0 a H).
    unfold bind at 1. unfold getMetamaskActiveAccount, await. rewrite Hfrom.
    unfold bind at 1.
    match goal with
    | |- context [getSymbolType w a ?s] =>
        destruct (getSymbolType_run w a s) as [evsP [HP [HsP HgP]]];
        rewrite HP, (getSymbolType_outcome w a s st), Hstype
    end.
    unfold bind at 1. unfold send, await, after. cbn [trace proofSubject].
    rewrite Hsend. exists evsP. rewrite <- !app_assoc.
    split; [reflexivity | split; assumption]. }
  destruct Hrun as [evsP [Hrun [HsP HgP]]]. rewrite Hrun.
  unfold outcome. cbn [fst snd proofSubject after].
  split; [reflexivity |].
  rewrite (appended_after st _
             (evs0 ++ [GetMetamaskActiveAccount] ++ evsP ++
                [Send (registerEntry stype a) from])).
  - split; [| split; [| exact Hsub]].
    + rewrite !filter_app, (passive_not_Send evs0 Hf0), HsP. reflexivity.
    + rewrite !count_HttpGet_app, (passive_not_HttpGet evs0 Hf0), HgP.
      reflexivity.
  - unfold after. simpl. rewrite Ht0, <- !app_assoc. reflexivity.
Qed.

Lemma registerToken_send_rejected_witness :
  outcome (registerToken decliningWorld "0xCD" initialState) =
    Throw (MkError "User denied") /\
  count_HttpGet (appended initialState
                   (registerToken decliningWorld "0xCD" initialState)) = 0%nat.
Proof.
  destruct (registerToken_send_rejected decliningWorld initialState "0xCD"
              "0xme" {| st_symbol := Some "CDT"; isString := true |}
              (MkError "User denied") eq_refl eq_refl eq_refl eq_refl)
    as (H1 & _ & H2 & _).
  split; [exact H1 | exact H2].
Defined.

Lemma confined_monitorEventProof (p : Event -> bool) (w : World)
  (a : Address) :
  p (registerQuery w a) = true -> confined p (monitorEventProof w a).
Proof.
  intros Hp st. rewrite monitorEventProof_eq. split; [reflexivity |].
  exists [registerQuery w a]. split; [reflexivity |].
  repeat constructor. exact Hp.
Qed.

(** X8: by the time [registerToken] returns it has notified no observer, asked
    for no proof and waited for nothing, and the proof subject is as it was:
    delivery is left to the subscription it returns. *)
Theorem registerToken_before_delivery (w : World) (a : Address) :
  confined registration_event (registerToken w a).
Proof.
  unfold registerToken, hasRegistered, getTokenRegisterStatus,
    getMetamaskActiveAccount, getSymbolType, send.
  confine; apply confined_monitorEventProof; reflexivity.
Qed.

(** ** Monitoring, from the request to the delivery *)

Lemma filter_next_notify_next (obs : list nat) (p : MPTProof) :
  filter is_next (notify_all obs (NNext p)) = notify_all obs (NNext p).
Proof.
  unfold notify_all. induction obs as [| o obs IH]; simpl;
    [reflexivity | rewrite IH; reflexivity].
Qed.

Lemma filter_next_notify_other (obs : list nat) (n : Notification) :
  (forall p, n <> NNext p) -> filter is_next (notify_all obs n) = [].
Proof.
  intros Hn. unfold notify_all. induction obs as [| o obs IH]; simpl;
    [reflexivity |].
  destruct n; [exfalso; apply (Hn p); reflexivity | exact IH | exact IH].
Qed.

Lemma after_nil (st : State) : after st [] = st.
Proof. unfold after. rewrite app_nil_r. destruct st; reflexivity. Qed.

(** Without a record in the settled answer the pipeline only waits. *)
Lemma pipeline_without_record (w : World) (fuel : nat) (st : State)
  (api : Promise (option IndexerRecord)) :
  (forall d, api <> Ok (Some d)) ->
  exists k, pipeline w fuel api st =
              (Pending, after st (repeat (Delay 3000) k)) /\
            (api = Ok None \/ (exists e, api = Throw e) -> k = fuel).
Proof.
  intros Hapi. unfold pipeline, subscribe_proofSubject, switchMap.
  unfold bind at 1.
  destruct api as [[d |] | e |].
  - exfalso. apply (Hapi d). reflexivity.
  - rewrite (retry_forever w fuel st (Ok None) (or_introl eq_refl)).
    exists fuel. split; [reflexivity | reflexivity].
  - rewrite (retry_forever w fuel st (Throw e)
               (or_intror (ex_intro _ e eq_refl))).
    exists fuel. split; [reflexivity | reflexivity].
  - exists 0%nat. split.
    + destruct fuel; simpl; rewrite after_nil; reflexivity.
    + intros [H | [e H]]; discriminate H.
Qed.

Lemma monitor_record_run (w : World) (st : State) (a : Address)
  (d : IndexerRecord) (p : MPTProof) (fuel : nat) :
  indexer w (count_HttpGet (trace st)) a = Ok (Some d) ->
  mpt_proof w (block_hash d) proofAddress = Ok p ->
  isStopped (proofSubject st) = false ->
  (s <- monitorEventProof w a ;; runSubscription w (S fuel) s) st =
    (Ok tt,
     {| trace := trace st ++
          registerQuery w a :: GetMPTProof (block_hash d) proofAddress
            :: notify_all (observers (proofSubject st)) (NNext p) ++
               notify_all (observers (proofSubject st)) NComplete;
        proofSubject := {| observers := []; isStopped := true;
                           hasError := hasError (proofSubject st);
                           thrownError := thrownError (proofSubject st) |} |}).
Proof.
  intros Hd Hp Hs. unfold bind at 1. rewrite monitorEventProof_eq.
  unfold runSubscription, handleAfter. cbn [sub_api]. rewrite Hd.
  rewrite (pipeline_delivers w (after st [registerQuery w a]) fuel d p Hp Hs).
  unfold after. cbn [trace proofSubject]. rewrite <- app_assoc. reflexivity.
Qed.

(** X9: when the one request is answered with a record and the proof is
    produced, a monitoring on a live subject asks for the proof of the
    record's block under the fixed key once, hands the proof to every
    attached observer, then completes them; one subscription to the source is
    enough. *)
Theorem monitoring_delivers (w : World) (st : State) (a : Address)
  (d : IndexerRecord) (p : MPTProof) (fuel : nat) :
  indexer w (count_HttpGet (trace st)) a = Ok (Some d) ->
  mpt_proof w (block_hash d) proofAddress = Ok p ->
  isStopped (proofSubject st) = false ->
  (s <- monitorEventProof w a ;; runSubscription w (S fuel) s) st =
    (Ok tt,
     {| trace := trace st ++
          registerQuery w a :: GetMPTProof (block_hash d) proofAddress
            :: notify_all (observers (proofSubject st)) (NNext p) ++
               notify_all (observers (proofSubject st)) NComplete;
        proofSubject := {| observers := []; isStopped := true;
                           hasError := hasError (proofSubject st);
                           thrownError := thrownError (proofSubject st) |} |}).
Proof. exact (monitor_record_run w st a d p fuel). Qed.

Lemma monitoring_delivers_witness :
  events ((s <- monitorEventProof (sampleWorld 43 0) "0xE2" ;;
           runSubscription (sampleWorld 43 0) 1 s)
            (snd (subscribeProof 7 initialState))) =
    [registerQuery (sampleWorld 43 0) "0xE2";
     GetMPTProof "0xb10c" proofAddress;
     Notify 7 (NNext "proof"); Notify 7 NComplete].
Proof.
  rewrite (monitoring_delivers (sampleWorld 43 0)
             (snd (subscribeProof 7 initialState)) "0xE2" sampleRecord "proof"
             0 eq_refl eq_refl eq_refl).
  reflexivity.
Defined.

(** X10: the stream is single-shot: the first delivered proof completes the shared
    subject, so whatever is done with the module afterwards (attaching
    observers, registering or monitoring any address), no observer is handed
    a proof again. *)
Theorem stream_is_single_shot (w : World) (st : State) (a : Address)
  (d : IndexerRecord) (p : MPTProof) (fuel : nat) (later : list Action) :
  indexer w (count_HttpGet (trace st)) a = Ok (Some d) ->
  mpt_proof w (block_hash d) proofAddress = Ok p ->
  isStopped (proofSubject st) = false ->
  let st1 := snd ((s <- monitorEventProof w a ;;
                   runSubscription w (S fuel) s) st) in
  isStopped (proofSubject st1) = true /\
  observers (proofSubject st1) = [] /\
  exists evs, trace (runActions later st1) = trace st1 ++ evs /\
              Forall (fun ev => is_next ev = false) evs.
Proof.
  intros Hd Hp Hs st1. subst st1.
  rewrite (monitor_record_run w st a d p fuel Hd Hp Hs). cbn [snd].
  split; [reflexivity | split; [reflexivity |]].
  apply silent_runActions. reflexivity.
Qed.

Lemma stream_is_single_shot_witness :
  exists evs,
    trace (runActions
             [AMonitor (sampleWorld 43 0) "0xAB" 3; ASubscribe 8]
             (snd ((s <- monitorEventProof (sampleWorld 43 0) "0xE2" ;;
                    runSubscription (sampleWorld 43 0) 1 s)
                     (snd (subscribeProof 7 initialState))))) =
      trace (snd ((s <- monitorEventProof (sampleWorld 43 0) "0xE2" ;;
                   runSubscription (sampleWorld 43 0) 1 s)
                    (snd (subscribeProof 7 initialState)))) ++ evs /\
    Forall (fun ev => is_next ev = false) evs.
Proof.
  apply (stream_is_single_shot (sampleWorld 43 0)
           (snd (subscribeProof 7 initialState)) "0xE2" sampleRecord "proof" 0
           [AMonitor (sampleWorld 43 0) "0xAB" 3; ASubscribe 8]
           eq_refl eq_refl eq_refl).
Defined.

(** X11: when the one request to the indexer is rejected, or answered with
    nothing, the failure is never reported: however long the monitoring runs
    it only waits, the subject and its observers are left as they are, and no
    second request is sent. *)
Theorem monitoring_failure_not_surfaced (w : World) (st : State)
  (a : Address) (fuel : nat) :
  indexer w (count_HttpGet (trace st)) a = Ok None \/
  (exists e, indexer w (count_HttpGet (trace st)) a = Throw e) ->
  (s <- monitorEventProof w a ;; runSubscription w fuel s) st =
    (Pending, after st (registerQuery w a :: repeat (Delay 3000) fuel)).
Proof.
  intros Hapi. unfold bind at 1. rewrite monitorEventProof_eq.
  unfold runSubscription, handleAfter. cbn [sub_api].
  destruct (pipeline_without_record w fuel (after st [registerQuery w a])
              (indexer w (count_HttpGet (trace st)) a)) as [k [Hk Hfuel]].
  - intros d Hd. destruct Hapi as [H | [e H]]; rewrite H in Hd;
      discriminate Hd.
  - rewrite Hk, (Hfuel Hapi). unfold after. cbn [trace proofSubject].
    rewrite <- app_assoc. reflexivity.
Qed.

Lemma monitoring_failure_not_surfaced_witness :
  (s <- monitorEventProof offlineWorld "0xE2" ;;
   runSubscription offlineWorld 3 s) (snd (subscribeProof 7 initialState)) =
    (Pending,
     after (snd (subscribeProof 7 initialState))
       [registerQuery offlineWorld "0xE2"; Delay 3000; Delay 3000;
        Delay 3000]).
Proof.
  apply (monitoring_failure_not_surfaced offlineWorld
           (snd (subscribeProof 7 initialState)) "0xE2" 3).
  right. exists (MkError "Network Error"). reflexivity.
Defined.

(** X12: whatever the settled answer, the world and the number of retries, the
    pipeline of a subscription never sends a request to the indexer, asks for
    at most one proof, and hands at most one proof to the observers attached
    when it started. *)
Theorem pipeline_at_most_one_delivery (w : World) (fuel : nat) (st : State)
  (api : Promise (option IndexerRecord)) :
  let new := appended st (pipeline w fuel api st) in
  count_HttpGet new = 0%nat /\
  (List.length (filter is_GetMPTProof new) <= 1)%nat /\
  (filter is_next new = [] \/
   exists p, filter is_next new =
               notify_all (observers (proofSubject st)) (NNext p)).
Proof.
  intros new. subst new.
  assert (Hwait : forall k,
            pipeline w fuel api st =
              (Pending, after st (repeat (Delay 3000) k)) ->
            count_HttpGet (appended st (pipeline w fuel api st)) = 0%nat /\
            (List.length (filter is_GetMPTProof
                            (appended st (pipeline w fuel api st))) <= 1)%nat /\
            filter is_next (appended st (pipeline w fuel api st)) = []).
  { intros k Hk. rewrite Hk.
    rewrite (appended_after st _ (repeat (Delay 3000) k)) by reflexivity.
    split; [apply count_HttpGet_delays |].
    clear Hk. split; induction k; simpl; auto. }
  destruct fuel as [| fuel].
  - destruct (Hwait 0%nat) as (H1 & H2 & H3); [| auto].
    unfold pipeline, subscribe_proofSubject, switchMap, bind. simpl.
    rewrite after_nil. reflexivity.
  - destruct api as [[d |] | e |].
    + rewrite pipeline_record.
      set (g := GetMPTProof (block_hash d) proofAddress).
      destruct (mpt_proof w (block_hash d) proofAddress) as [p | e |].
      * unfold bind, subject_next, subject_complete, after.
        cbn [trace proofSubject fst snd].
        destruct (isStopped (proofSubject st)) eqn:Hs;
          cbn [trace proofSubject fst snd].
        -- rewrite (appended_after st _
                      ([g] ++ notify_all (observers (proofSubject st))
                                NComplete))
             by (cbn [snd trace]; rewrite <- app_assoc; reflexivity).
           rewrite count_HttpGet_app, !filter_app.
           rewrite (filter_next_notify_other _ NComplete)
             by (intros q; discriminate).
           split; [| split; [| left; reflexivity]].
           ++ unfold count_HttpGet, notify_all. simpl.
              induction (observers (proofSubject st)); simpl; auto.
           ++ unfold notify_all. simpl.
              induction (observers (proofSubject st)); simpl; auto.
        -- rewrite (appended_after st _
                      ([g] ++ notify_all (observers (proofSubject st))
                                (NNext p)
                           ++ notify_all (observers (proofSubject st))
                                NComplete))
             by (cbn [snd trace]; rewrite <- !app_assoc; reflexivity).
           rewrite !count_HttpGet_app, !filter_app.
           rewrite (filter_next_notify_other _ NComplete)
             by (intros q; discriminate).
           rewrite filter_next_notify_next, app_nil_r.
           split; [| split; [| right; exists p; reflexivity]].
           ++ unfold count_HttpGet, notify_all. simpl.
              induction (observers (proofSubject st)); simpl; auto.
           ++ unfold notify_all. simpl.
              induction (observers (proofSubject st)); simpl; auto.
      * unfold subject_error, after. cbn [trace proofSubject fst snd].
        rewrite (appended_after st _
                   ([g] ++ notify_all (observers (proofSubject st))
                             (NError e)))
          by (cbn [snd trace]; rewrite <- app_assoc; reflexivity).
        rewrite count_HttpGet_app, !filter_app.
        rewrite (filter_next_notify_other _ (NError e))
          by (intros q; discriminate).
        split; [| split; [| left; reflexivity]].
        -- unfold count_HttpGet, notify_all. simpl.
           induction (observers (proofSubject st)); simpl; auto.
        -- unfold notify_all. simpl.
           induction (observers (proofSubject st)); simpl; auto.
      * rewrite (appended_after st _ [g]) by reflexivity.
        split; [reflexivity | split; [simpl; lia | left; reflexivity]].
    + destruct (pipeline_without_record w (S fuel) st (Ok None))
        as [k [Hk _]]; [intros d; discriminate |].
      destruct (Hwait k Hk) as (H1 & H2 & H3). auto.
    + destruct (pipeline_without_record w (S fuel) st (Throw e))
        as [k [Hk _]]; [intros d; discriminate |].
      destruct (Hwait k Hk) as (H1 & H2 & H3). auto.
    + destruct (pipeline_without_record w (S fuel) st Pending)
        as [k [Hk _]]; [intros d; discriminate |].
      destruct (Hwait k Hk) as (H1 & H2 & H3). auto.
Qed.

(** ** The catalogue *)

(** X13: with [assetLength() = n], [getAllTokensEthereum] starts one resolution per
    index, each reading [allAssets(index)] and decorating the address that
    came back; the [n] records come back in index order, each under the
    address of its index. *)
Theorem getAllTokensEthereum_spec (w : World) (st : State)
  (account : Account) (n : nat) (asset : nat -> Address)
  (sd : nat -> SymbolDecimals) (bal : nat -> Z) :
  chain_assetLength w = Ok n ->
  (forall i, (i < n)%nat -> chain_allAssets w i = Ok (asset i)) ->
  (forall i, (i < n)%nat -> util_tokenInfo w (asset i) = Ok (sd i)) ->
  (forall i, (i < n)%nat -> truthy_string account = true ->
     util_tokenBalance w (asset i) account = Ok (bal i)) ->
  let entry i := decorated w account (asset i) (sd i) (bal i) in
  getAllTokensEthereum w account st =
    (Ok (map entry (seq 0 n)),
     after st
       [Call (methods backingContract "assetLength" []);
        Par (map (fun i => assetResolution account i (asset i)) (seq 0 n))])
  /\ (forall i, (i < n)%nat ->
        nth_error (map entry (seq 0 n)) i = Some (entry i) /\
        address (entry i) = asset i).
Proof.
  intros Hn Hasset Hsd Hbal entry. split.
  - unfold getAllTokensEthereum. unfold bind at 1, await at 1. rewrite Hn.
    unfold array_map_index. unfold bind at 1.
    rewrite (promise_all_map _ entry
               (fun i => assetResolution account i (asset i))).
    + unfold ret, after. simpl. rewrite <- app_assoc. reflexivity.
    + intros i Hi. apply in_seq in Hi. simpl in Hi. destruct Hi as [_ Hi].
      unfold run_task.
      match goal with
      | |- context [fst (?task ?s0)] =>
          assert (Htask : task s0 =
                    (Ok (entry i),
                     after s0 (assetResolution account i (asset i))))
      end.
      { unfold bind at 1, await at 1. rewrite (Hasset i Hi).
        cbn [fst snd trace proofSubject].
        rewrite (getTokenInfo_ok w _ (asset i) account (sd i) (bal i)
                   (Hsd i Hi) (Hbal i Hi)).
        unfold after, assetResolution, entry, decorated. simpl.
        destruct (truthy_string account); reflexivity. }
      rewrite Htask. reflexivity.
  - intros i Hi. split; [| reflexivity].
    rewrite nth_error_map, nth_error_seq.
    replace (i <? n)%nat with true by (symmetry; apply Nat.ltb_lt; exact Hi).
    reflexivity.
Qed.

Lemma getAllTokensEthereum_spec_witness :
  outcome (getAllTokensEthereum (sampleWorld 43 0) "0xme" initialState) =
    Ok [decorated (sampleWorld 43 0) "0xme" "0xE2"
          {| sd_symbol := Some "0xE2-sym"; sd_decimals := None |} 5;
        decorated (sampleWorld 43 0) "0xme" "0xAB"
          {| sd_symbol := Some "0xAB-sym"; sd_decimals := None |} 5;
        decorated (sampleWorld 43 0) "0xme" "0xCD"
          {| sd_symbol := Some "0xCD-sym"; sd_decimals := None |} 5].
Proof.
  destruct (getAllTokensEthereum_spec (sampleWorld 43 0) initialState "0xme" 3
              (fun i => match i with
                        | 0%nat => "0xE2"
                        | 1%nat => "0xAB"
                        | _ => "0xCD"
                        end)
              (fun i => match i with
                        | 0%nat => {| sd_symbol := Some "0xE2-sym";
                                      sd_decimals := None |}
                        | 1%nat => {| sd_symbol := Some "0xAB-sym";
                                      sd_decimals := None |}
                        | _ => {| sd_symbol := Some "0xCD-sym";
                                  sd_decimals := None |}
                        end)
              (fun _ => 5)
              eq_refl) as [H _].
  - intros [| [| [| i]]] Hi; [reflexivity | reflexivity | reflexivity | lia].
  - intros [| [| [| i]]] Hi; [reflexivity | reflexivity | reflexivity | lia].
  - intros i Hi Ht. reflexivity.
  - rewrite H. reflexivity.
Defined.

Lemma all_settled_throw {A} (os : list (Outcome A)) (e : Error) :
  In (Throw e) os -> exists e', all_settled os = Throw e'.
Proof.
  induction os as [| o os IH]; intros Hin; [destruct Hin |].
  destruct Hin as [-> | Hin].
  - exists e. reflexivity.
  - destruct (IH Hin) as [e' He']. simpl. rewrite He'.
    destruct o as [x | e0 |]; [exists e' | exists e0 | exists e'];
      reflexivity.
Qed.

(** X14: one failed [allTokens] read fails the whole listing of
    [getAllTokensDvm]: no partial list is returned.  All the resolutions were
    started all the same, and the failed one stops at its failed read. *)
Theorem getAllTokensDvm_one_failure (w : World) (st : State)
  (account : Account) (n k : nat) (e : Error) :
  chain_tokenLength w = Ok n ->
  (k < n)%nat ->
  chain_allTokens w k = Throw e ->
  let r := getAllTokensDvm w account st in
  (exists e', outcome r = Throw e') /\
  exists branches,
    events r = trace st ++
      [Call (methods mappingContract "tokenLength" []); Par branches] /\
    List.length branches = n /\
    nth_error branches k =
      Some [Call (methods mappingContract "allTokens" [ANum k])].
Proof.
  intros Hn Hk He r. subst r.
  set (s := proofSubject st).
  set (rs := map (run_task s) (map (dvmTask w account) (seq 0 n))).
  assert (Hnth : nth_error rs k =
                   Some (Throw e,
                         [Call (methods mappingContract "allTokens"
                                  [ANum k])])).
  { subst rs. rewrite map_map, nth_error_map, nth_error_seq.
    replace (k <? n)%nat with true by (symmetry; apply Nat.ltb_lt; exact Hk).
    simpl. unfold run_task, dvmTask, bind, await. rewrite He. reflexivity. }
  destruct (all_settled_throw (map fst rs) e) as [e' He'].
  { apply in_map_iff. exists (Throw e, [Call (methods mappingContract
                                                "allTokens" [ANum k])]).
    split; [reflexivity | apply (nth_error_In _ _ Hnth)]. }
  assert (Hrun : getAllTokensDvm w account st =
            (Throw e',
             after st [Call (methods mappingContract "tokenLength" []);
                       Par (map snd rs)])).
  { change (getAllTokensDvm w account st) with
      ((length <- await (Call (methods mappingContract "tokenLength" []))
                        (chain_tokenLength w) ;;
        tokens <- promise_all (array_map_index length (dvmTask w account)) ;;
        ret tokens) st).
    unfold bind at 1, await at 1. rewrite Hn. unfold bind at 1.
    unfold promise_all, array_map_index. cbn [trace proofSubject].
    fold s. fold rs. rewrite He'. unfold after. cbn [trace proofSubject].
    rewrite <- app_assoc. reflexivity. }
  rewrite Hrun. unfold outcome, events, after. cbn [fst snd trace].
  split; [exists e'; reflexivity |].
  exists (map snd rs). split; [reflexivity |].
  split.
  - subst rs. rewrite !length_map, length_seq. reflexivity.
  - rewrite nth_error_map, Hnth. reflexivity.
Qed.

Lemma getAllTokensDvm_one_failure_witness :
  (exists e',
     outcome (getAllTokensDvm brokenListWorld "0xme" initialState) = Throw e')
  /\
  exists branches,
    events (getAllTokensDvm brokenListWorld "0xme" initialState) =
      trace initialState ++
        [Call (methods mappingContract "tokenLength" []); Par branches] /\
    List.length branches = 2%nat /\
    nth_error branches 1 =
      Some [Call (methods mappingContract "allTokens" [ANum 1])].
Proof.
  apply (getAllTokensDvm_one_failure brokenListWorld initialState "0xme"
           2 1 (MkError "execution reverted") eq_refl).
  - lia.
  - reflexivity.
Defined.

(** X15: [getTokenInfo] without an account never asks for the balance and reports
    zero; symbol and decimals left undefined by the metadata come out as the
    empty string and zero; when the metadata request fails, the failure is
    the result and the balance is not asked for. *)
Theorem getTokenInfo_edges (w : World) (st : State) (a : Address)
  (account : Account) :
  (forall sd, util_tokenInfo w a = Ok sd ->
     getTokenInfo w a "" st =
       (Ok (decorated w "" a sd 0), after st [TokenInfoGetter a]) /\
     balance (decorated w "" a sd 0) = 0) /\
  (forall bal,
     util_tokenInfo w a = Ok {| sd_symbol := None; sd_decimals := None |} ->
     util_tokenBalance w a account = Ok bal ->
     exists t, outcome (getTokenInfo w a account st) = Ok t /\
               symbol t = "" /\ decimals t = 0 /\ address t = a) /\
  (forall e, util_tokenInfo w a = Throw e ->
     getTokenInfo w a account st = (Throw e, after st [TokenInfoGetter a])).
Proof.
  split; [| split].
  - intros sd Hsd. split; [| reflexivity].
    rewrite (getTokenInfo_ok w st a "" sd 0 Hsd); [reflexivity |].
    intros H. discriminate H.
  - intros bal Hsd Hbal.
    rewrite (getTokenInfo_ok w st a account _ bal Hsd (fun _ => Hbal)).
    eexists. split; [reflexivity |]. repeat split.
  - intros e He. unfold getTokenInfo. run. rewrite He. reflexivity.
Qed.

Lemma getTokenInfo_edges_witness :
  getTokenInfo (sampleWorld 43 0) "0xAB" "" initialState =
    (Ok {| address := "0xAB"; symbol := "0xAB-sym"; decimals := 0;
           name := "0xAB-name"; logo := ""; balance := 0 |},
     after initialState [TokenInfoGetter "0xAB"]).
Proof.
  destruct (proj1 (getTokenInfo_edges (sampleWorld 43 0) initialState "0xAB"
                     "")
              {| sd_symbol := Some "0xAB-sym"; sd_decimals := None |} eq_refl)
    as [H _].
  rewrite H. reflexivity.
Defined.

(** ** Cross-chain transfer towards the source chain, for every wallet *)

(** X16: [crossSendErc20FromDvmToEth] asks the wallet for its network once and does
    nothing else.  It returns a transaction object exactly when the wallet
    reported the configured network id, and then it is the [crossTransfer]
    object with the decimal string of the amount; for any other reported id it
    throws the mismatch error; a failure of the wallet query is the result. *)
Theorem crossSend_dvm_to_eth_iff (w : World) (st : State)
  (token recipient : Address) (amount : Z) :
  let r := crossSendErc20FromDvmToEth w token recipient amount st in
  snd r = after st [IsNetworkMatch (DVM_NETWORK_ID w)] /\
  ((exists t, outcome r = Ok t) <->
   wallet_networkId w = Ok (DVM_NETWORK_ID w)) /\
  (forall t, outcome r = Ok t ->
     t = methods mappingContract "crossTransfer"
           [AStr token; AStr recipient; AStr (toString amount)]) /\
  (forall id, wallet_networkId w = Ok id ->
     (outcome r = Throw networkMismatch <-> id <> DVM_NETWORK_ID w)) /\
  (forall e, wallet_networkId w = Throw e -> outcome r = Throw e).
Proof.
  intros r. subst r. unfold crossSendErc20FromDvmToEth. run.
  destruct (wallet_networkId w) as [id | e |] eqn:Hid; simpl;
    [destruct (Z.eqb_spec id (DVM_NETWORK_ID w)) as [Heq | Hne]; simpl | |];
    repeat split; intros;
    try congruence;
    try (eexists; reflexivity);
    try match goal with
        | H : exists _, _ |- _ => destruct H; congruence
        | H : ?x <> ?x |- _ => exfalso; apply H; reflexivity
        end.
Qed.

Lemma crossSend_dvm_to_eth_iff_witness :
  outcome (crossSendErc20FromDvmToEth (sampleWorld 1 0) "0xD0" "0xme" 15
             initialState) = Throw networkMismatch.
Proof.
  destruct (crossSend_dvm_to_eth_iff (sampleWorld 1 0) initialState
              "0xD0" "0xme" 15) as (_ & _ & _ & H & _).
  apply (H 1 eq_refl). discriminate.
Defined.

Lemma all_settled_ok {A} (os : list (Outcome A)) (l : list A) :
  all_settled os = Ok l -> os = map Ok l.
Proof.
  revert l. induction os as [| o os IH]; intros l H; simpl in H.
  - injection H as <-. reflexivity.
  - destruct o as [x | e |]; try discriminate H.
    + destruct (all_settled os) as [l' | e |]; try discriminate H.
      injection H as <-. simpl. rewrite (IH l' eq_refl). reflexivity.
    + destruct (all_settled os); discriminate H.
Qed.

Lemma dvmTask_ok_inv (w : World) (account : Account) (s : Subject) (i : nat)
  (x : DvmToken) :
  fst (run_task s (dvmTask w account i)) = Ok x ->
  exists dvm,
    chain_allTokens w i = Ok dvm /\
    chain_tokenToInfo w dvm = Ok (dvm_info x) /\
    address (dvm_token x) = source (dvm_info x).
Proof.
  unfold run_task, dvmTask, getTokenInfo. run.
  destruct (chain_allTokens w i) as [dvm | e |]; simpl; try discriminate.
  destruct (chain_tokenToInfo w dvm) as [info | e |] eqn:Hinfo; simpl;
    try discriminate.
  destruct (util_tokenInfo w (source info)) as [sd | e |]; simpl;
    try discriminate.
  destruct (truthy_string account); simpl.
  - destruct (util_tokenBalance w (source info) account) as [bal | e |];
      simpl; try discriminate.
    intros H. injection H as <-. exists dvm.
    split; [reflexivity | split; [exact Hinfo | reflexivity]].
  - intros H. injection H as <-. exists dvm.
    split; [reflexivity | split; [exact Hinfo | reflexivity]].
Qed.

(** X17: a list returned by [getAllTokensDvm] is never partial: it has exactly
    [tokenLength()] entries, and the entry at each index carries the
    [tokenToInfo] answer for the address that [allTokens] gave at that index,
    under the address of its source. *)
Theorem getAllTokensDvm_ok_inv (w : World) (st : State) (account : Account)
  (l : list DvmToken) :
  outcome (getAllTokensDvm w account st) = Ok l ->
  chain_tokenLength w = Ok (List.length l) /\
  forall i x, nth_error l i = Some x ->
    exists dvm,
      chain_allTokens w i = Ok dvm /\
      chain_tokenToInfo w dvm = Ok (dvm_info x) /\
      address (dvm_token x) = source (dvm_info x).
Proof.
  change (getAllTokensDvm w account st) with
    ((length <- await (Call (methods mappingContract "tokenLength" []))
                      (chain_tokenLength w) ;;
      tokens <- promise_all (array_map_index length (dvmTask w account)) ;;
      ret tokens) st).
  unfold outcome, bind at 1, await at 1.
  destruct (chain_tokenLength w) as [n | e |]; try discriminate.
  unfold bind at 1, promise_all, array_map_index.
  cbn [fst snd trace proofSubject].
  set (s := proofSubject st).
  set (rs := map (run_task s) (map (dvmTask w account) (seq 0 n))).
  destruct (all_settled (map fst rs)) as [l' | e |] eqn:Hall; try discriminate.
  unfold ret. cbn [fst]. intros H. injection H as ->.
  apply all_settled_ok in Hall.
  assert (Hlen : List.length l = n).
  { apply (f_equal (@List.length _)) in Hall.
    rewrite !length_map in Hall. subst rs.
    rewrite !length_map, length_seq in Hall. symmetry. exact Hall. }
  split; [rewrite Hlen; reflexivity |].
  intros i x Hx.
  assert (Hi : (i < n)%nat).
  { rewrite <- Hlen. apply nth_error_Some. rewrite Hx. discriminate. }
  apply (dvmTask_ok_inv w account s i x).
  assert (Hnth : nth_error (map fst rs) i = Some (Ok x)).
  { rewrite Hall, nth_error_map, Hx. reflexivity. }
  subst rs. rewrite !map_map, nth_error_map, nth_error_seq in Hnth.
  replace (i <? n)%nat with true in Hnth
    by (symmetry; apply Nat.ltb_lt; exact Hi).
  simpl in Hnth. injection Hnth as Hnth. exact Hnth.
Qed.

Lemma getAllTokensDvm_ok_inv_witness :
  chain_tokenLength (sampleWorld 43 0) = Ok 2%nat /\
  forall i x,
    nth_error
      [composed (sampleWorld 43 0) "0xme"
         {| source := "0xAB"; backing := "0xBA" |}
         {| sd_symbol := Some "0xAB-sym"; sd_decimals := None |} 5;
       composed (sampleWorld 43 0) "0xme"
         {| source := "0xE2"; backing := "0xBA" |}
         {| sd_symbol := Some "0xE2-sym"; sd_decimals := None |} 5] i
      = Some x ->
    exists dvm,
      chain_allTokens (sampleWorld 43 0) i = Ok dvm /\
      chain_tokenToInfo (sampleWorld 43 0) dvm = Ok (dvm_info x) /\
      address (dvm_token x) = source (dvm_info x).
Proof.
  apply (getAllTokensDvm_ok_inv (sampleWorld 43 0) initialState "0xme"
           [composed (sampleWorld 43 0) "0xme"
              {| source := "0xAB"; backing := "0xBA" |}
              {| sd_symbol := Some "0xAB-sym"; sd_decimals := None |} 5;
            composed (sampleWorld 43 0) "0xme"
              {| source := "0xE2"; backing := "0xBA" |}
              {| sd_symbol := Some "0xE2-sym"; sd_decimals := None |} 5]).
  reflexivity.
Defined.
